(** * The image editing session of [image_processor.py]

    A shallow embedding of class [ImageProcessor]: the session record, its
    undo/redo history and the eight editing methods, followed by the
    properties of the editing state machine.

    Images are numpy arrays of shape (height, width, 3) holding 8-bit
    samples: here a list of rows, each row a list of pixels, each pixel the
    triple of its samples.  The OpenCV and numpy routines the methods call
    are modelled from the library's documented behaviour where that is
    integer arithmetic or index shuffling (cvtColor to and from gray,
    rotate, flip, transpose), and are taken as parameters where it is
    floating point or interpolation (GaussianBlur, Canny, the HSV
    conversions, the float32 arithmetic of numpy, resize). *)

From stdpp Require Import base list strings.
From Stdlib Require Import ZArith Lia Ascii.

Local Open Scope Z_scope.

(** ** Python lists: slicing and indexing *)

(** [l[:k]]: a negative bound counts from the end, and the bound is
    clamped to the list. *)
Definition py_slice_to {A} (l : list A) (k : Z) : list A :=
  if 0 <=? k then take (Z.to_nat k) l
  else take (Z.to_nat (Z.of_nat (length l) + k)) l.

(** [l[i]]: a negative index counts from the end; [None] stands for the
    IndexError of an index out of range. *)
Definition py_index {A} (l : list A) (i : Z) : option A :=
  if 0 <=? i then l !! Z.to_nat i
  else if 0 <=? Z.of_nat (length l) + i then l !! Z.to_nat (Z.of_nat (length l) + i)
  else None.

(** ** Python strings: [str.lower]

    Strings are sequences of bytes.  [lower] maps the ASCII capitals to
    their small letters and keeps every other byte.  No character outside
    ASCII has a lower-case form made only of the letters of "horizontal"
    or "vertical", so on the comparisons made by [flip_image] this agrees
    with Python on every string. *)
Definition ascii_lower (c : ascii) : ascii :=
  let n := nat_of_ascii c in
  if ((65 <=? n) && (n <=? 90))%nat then ascii_of_nat (n + 32) else c.

Fixpoint lower (s : string) : string :=
  match s with
  | EmptyString => EmptyString
  | String c s' => String (ascii_lower c) (lower s')
  end.

(** ** Pixel buffers *)

Definition pixel : Type := Z * Z * Z.
Abbreviation image := (list (list pixel)).
Abbreviation gray_image := (list (list Z)).

Global Instance pixel_inhabited : Inhabited pixel := populate (0, 0, 0).

(** An operation applied to every element of a two-dimensional array. *)
Definition map2d {A B} (f : A -> B) (m : list (list A)) : list (list B) :=
  (fun r : list A => f <$> r) <$> m.

(** [copy.deepcopy] of a value that is never mutated in place. *)
Definition deepcopy {A} (x : A) : A := x.

Section Matrix.
Context {A : Type} `{Inhabited A}.

(** [shape[0]] and [shape[1]] of an array. *)
Definition rows (m : list (list A)) : nat := length m.
Definition cols (m : list (list A)) : nat := length (hd [] m).

Definition at_ (m : list (list A)) (i j : nat) : A := (m !!! i) !!! j.

Definition tabulate (h w : nat) (f : nat -> nat -> A) : list (list A) :=
  fmap (fun i => fmap (fun j => f i j) (seq 0 w)) (seq 0 h).

(** The arrays the library hands out are rectangular. *)
Definition rect (m : list (list A)) (h w : nat) : Prop :=
  length m = h /\ Forall (fun r => length r = w) m.

(** [cv2.transpose]: dst(i, j) = src(j, i). *)
Definition cv2_transpose (m : list (list A)) : list (list A) :=
  tabulate (cols m) (rows m) (fun i j => at_ m j i).

(** [cv2.flip(src, flipCode)]: 0 flips around the x axis (the rows are
    reversed), a positive code around the y axis (every row is
    reversed), a negative code around both. *)
Definition cv2_flip (m : list (list A)) (flipCode : Z) : list (list A) :=
  if flipCode =? 0 then reverse m
  else if 0 <? flipCode then fmap reverse m
  else reverse (fmap reverse m).

Inductive RotateFlags :=
| ROTATE_90_CLOCKWISE
| ROTATE_180
| ROTATE_90_COUNTERCLOCKWISE.

(** [cv2.rotate], as the library computes it: a transposition followed
    by a flip for the quarter turns, a flip around both axes for the
    half turn. *)
Definition cv2_rotate (m : list (list A)) (rotateCode : RotateFlags)
  : list (list A) :=
  match rotateCode with
  | ROTATE_90_CLOCKWISE => cv2_flip (cv2_transpose m) 1
  | ROTATE_180 => cv2_flip m (-1)
  | ROTATE_90_COUNTERCLOCKWISE => cv2_flip (cv2_transpose m) 0
  end.
End Matrix.

Arguments RotateFlags : clear implicits.

(** ** Colour conversions on 8-bit samples *)

(** The fixed-point luminance weights of the library for 8-bit images:
    0.299, 0.587 and 0.114 scaled by 2^15, adjusted so that they add up
    to 2^15 (the library asserts it). *)
Definition gray_shift : Z := 15.
Definition RY15 : Z := 9798.
Definition GY15 : Z := 19235.
Definition BY15 : Z := 3735.

(** [CV_DESCALE(x, n)]: division by 2^n, rounding to nearest. *)
Definition CV_DESCALE (x n : Z) : Z := Z.shiftr (x + Z.shiftl 1 (n - 1)) n.

Definition rgb2gray_pixel (p : pixel) : Z :=
  let '(r, g, b) := p in CV_DESCALE (r * RY15 + g * GY15 + b * BY15) gray_shift.

Definition cvtColor_RGB2GRAY (img : image) : gray_image :=
  map2d rgb2gray_pixel img.

Definition cvtColor_GRAY2RGB (g : gray_image) : image :=
  map2d (fun y => (y, y, y)) g.

(** BGR to RGB and back: the first and the third sample trade places. *)
Definition cvtColor_BGR2RGB (img : image) : image :=
  map2d (fun p : pixel => let '(b, g, r) := p in (r, g, b)) img.

(** ** The numerical routines taken as parameters

    Floating point and interpolation are outside the embedding: the
    routines below are the library's, and the session only passes buffers
    through them. *)
Class Numerics := {
  (** Python's float, the type of the brightness and contrast factors. *)
  float : Type;
  (** numpy's float32, the type of the channel means. *)
  float32 : Type;
  (** [cv2.GaussianBlur(img, (kw, kh), 0)] for an odd positive kernel. *)
  gaussian : image -> Z -> Z -> image;
  (** [cv2.Canny(gray, threshold1, threshold2)]. *)
  Canny : gray_image -> Z -> Z -> gray_image;
  cvtColor_RGB2HSV : image -> image;
  cvtColor_HSV2RGB : image -> image;
  (** [uint8(clip(float32(v) * factor, 0, 255))]. *)
  scale_clip : Z -> float -> Z;
  (** [np.mean] of the samples of one channel. *)
  np_mean : list Z -> float32;
  (** [uint8(clip((float32(x) - mean) * factor + mean, 0, 255))]. *)
  stretch_clip : Z -> float32 -> float -> Z;
  (** [cv2.resize(img, (width, height))] for a non-empty target size. *)
  interpolate : image -> Z -> Z -> image
}.

(** ** Exceptions and results of a method call *)

Inductive exn := IndexError | cv2_error.

Inductive outcome (A : Type) :=
| Return (a : A)
| Raise (e : exn).
Arguments Return {A} a.
Arguments Raise {A} e.

(** [cv2.GaussianBlur] asserts that both kernel sides are odd and
    positive when sigma is 0. *)
Definition cv2_GaussianBlur `{Numerics} (img : image) (ksize : Z * Z)
  : outcome image :=
  let '(kw, kh) := ksize in
  if (0 <? kw) && (kw mod 2 =? 1) && (0 <? kh) && (kh mod 2 =? 1)
  then Return (gaussian img kw kh) else Raise cv2_error.

(** [cv2.resize] asserts that the target size is not empty: with the scale
    factors left at 0, a width or height that is not positive fails. *)
Definition cv2_resize `{Numerics} (img : image) (dsize : Z * Z)
  : outcome image :=
  let '(width, height) := dsize in
  if (width <=? 0) || (height <=? 0) then Raise cv2_error
  else Return (interpolate img width height).

(** ** The session: class [ImageProcessor] *)

Record processor := {
  original_image : option image;
  current_image : option image;
  image_path : option string;
  history : list (option image);
  history_index : Z
}.

Definition set_current_image (v : option image) (self : processor) :=
  {| original_image := original_image self; current_image := v;
     image_path := image_path self; history := history self;
     history_index := history_index self |}.

Definition set_history (v : list (option image)) (self : processor) :=
  {| original_image := original_image self;
     current_image := current_image self;
     image_path := image_path self; history := v;
     history_index := history_index self |}.

Definition set_history_index (v : Z) (self : processor) :=
  {| original_image := original_image self;
     current_image := current_image self;
     image_path := image_path self; history := history self;
     history_index := v |}.

(** A method takes the session and gives its result and the session it
    leaves behind, also when it raises. *)
Definition method (A : Type) : Type := processor -> outcome A * processor.

(** [__init__] without a path. *)
Definition init : processor :=
  {| original_image := None; current_image := None; image_path := None;
     history := []; history_index := -1 |}.

(** [load_image]; [imread] is the file system seen through [cv2.imread],
    which gives None for a file it cannot decode. *)
Definition load_image (imread : string -> option image) (path : string)
  : method bool := fun self =>
  match imread path with
  | None => (Return false, self)
  | Some img =>
      let rgb := cvtColor_BGR2RGB img in
      (Return true,
       {| original_image := Some rgb; current_image := Some (deepcopy rgb);
          image_path := Some path; history := []; history_index := -1 |})
  end.

Definition _save_to_history (self : processor) : processor :=
  let self := set_history (py_slice_to (history self) (history_index self + 1)) self in
  let self := set_history (history self ++ [deepcopy (current_image self)]) self in
  set_history_index (history_index self + 1) self.

Definition undo : method bool := fun self =>
  if 0 <? history_index self then
    let self := set_history_index (history_index self - 1) self in
    match py_index (history self) (history_index self) with
    | Some snap => (Return true, set_current_image (deepcopy snap) self)
    | None => (Raise IndexError, self)
    end
  else (Return false, self).

Definition redo : method bool := fun self =>
  if history_index self <? Z.of_nat (length (history self)) - 1 then
    let self := set_history_index (history_index self + 1) self in
    match py_index (history self) (history_index self) with
    | Some snap => (Return true, set_current_image (deepcopy snap) self)
    | None => (Raise IndexError, self)
    end
  else (Return false, self).

Definition get_image_dimensions (self : processor) : Z * Z :=
  match current_image self with
  | None => (0, 0)
  | Some img => (Z.of_nat (cols img), Z.of_nat (rows img))
  end.

(** [self.current_image = f(self.current_image); return True], where [f]
    is a library routine: it raises on None, and what it raises leaves the
    assignment undone. *)
Definition assign_current (f : image -> outcome image) : method bool :=
  fun self =>
  match current_image self with
  | None => (Raise cv2_error, self)
  | Some img =>
      match f img with
      | Return img' => (Return true, set_current_image (Some img') self)
      | Raise e => (Raise e, self)
      end
  end.

Definition convert_grayscale : method bool := fun self =>
  if bool_decide (current_image self = None) then (Return false, self)
  else
    let self := _save_to_history self in
    assign_current
      (fun img =>
         let gray := cvtColor_RGB2GRAY img in
         Return (cvtColor_GRAY2RGB gray)) self.

(** The kernel side of [apply_blur]:
    [max(1, intensity if intensity % 2 == 1 else intensity + 1)]. *)
Definition blur_kernel (intensity : Z) : Z :=
  Z.max 1 (if intensity mod 2 =? 1 then intensity else intensity + 1).

Definition apply_blur `{Numerics} (intensity : Z) : method bool := fun self =>
  if bool_decide (current_image self = None) then (Return false, self)
  else
    let self := _save_to_history self in
    let intensity := blur_kernel intensity in
    assign_current (fun img => cv2_GaussianBlur img (intensity, intensity)) self.

Definition detect_edges `{Numerics} (threshold1 threshold2 : Z)
  : method bool := fun self =>
  if bool_decide (current_image self = None) then (Return false, self)
  else
    let self := _save_to_history self in
    assign_current
      (fun img =>
         let gray := cvtColor_RGB2GRAY img in
         let edges := Canny gray threshold1 threshold2 in
         Return (cvtColor_GRAY2RGB edges)) self.

(** The third channel of the HSV buffer is scaled and clipped; the other
    two pass through float32 and back unchanged. *)
Definition adjust_brightness `{Numerics} (factor : float) : method bool :=
  fun self =>
  if bool_decide (current_image self = None) then (Return false, self)
  else
    let self := _save_to_history self in
    assign_current
      (fun img =>
         let hsv := cvtColor_RGB2HSV img in
         let hsv :=
           map2d (fun p : pixel =>
                    let '(h, s, v) := p in (h, s, scale_clip v factor)) hsv in
         Return (cvtColor_HSV2RGB hsv)) self.

(** The samples of one channel, in row-major order. *)
Definition channel (k : pixel -> Z) (img : image) : list Z :=
  fmap k (concat img).

Definition adjust_contrast `{Numerics} (factor : float) : method bool :=
  fun self =>
  if bool_decide (current_image self = None) then (Return false, self)
  else
    let self := _save_to_history self in
    assign_current
      (fun img =>
         let m0 := np_mean (channel (fun p => p.1.1) img) in
         let m1 := np_mean (channel (fun p => p.1.2) img) in
         let m2 := np_mean (channel (fun p => p.2) img) in
         Return
           (map2d (fun p : pixel =>
                     let '(a, b, c) := p in
                     (stretch_clip a m0 factor, stretch_clip b m1 factor,
                      stretch_clip c m2 factor)) img)) self.

Definition rotate_image (angle : Z) : method bool := fun self =>
  if bool_decide (current_image self = None) then (Return false, self)
  else
    let self := _save_to_history self in
    if angle =? 90 then
      assign_current
        (fun img => Return (cv2_rotate img ROTATE_90_COUNTERCLOCKWISE)) self
    else if angle =? 180 then
      assign_current (fun img => Return (cv2_rotate img ROTATE_180)) self
    else if angle =? 270 then
      assign_current
        (fun img => Return (cv2_rotate img ROTATE_90_CLOCKWISE)) self
    else (Return false, self).

Definition flip_image (direction : string) : method bool := fun self =>
  if bool_decide (current_image self = None) then (Return false, self)
  else
    let self := _save_to_history self in
    if bool_decide (lower direction = "horizontal") then
      assign_current (fun img => Return (cv2_flip img 1)) self
    else if bool_decide (lower direction = "vertical") then
      assign_current (fun img => Return (cv2_flip img 0)) self
    else (Return false, self).

Definition resize_image `{Numerics} (width height : Z) : method bool :=
  fun self =>
  if bool_decide (current_image self = None) then (Return false, self)
  else
    let self := _save_to_history self in
    assign_current (fun img => cv2_resize img (width, height)) self.

Definition reset_image : method bool := fun self =>
  match original_image self with
  | None => (Return false, self)
  | Some img =>
      (Return true,
       {| original_image := original_image self;
          current_image := Some (deepcopy img);
          image_path := image_path self; history := [];
          history_index := -1 |})
  end.

(** ** The resize dialog of [gui_controls.py]

    [apply_resize], from the point where both entries have been parsed:
    the size check, the call into the session and the message shown (the
    text of a caught exception is left out of its message). *)
Inductive messagebox :=
| showinfo (title message : string)
| showerror (title message : string).

Definition apply_resize `{Numerics} (width height : Z)
  : processor -> messagebox * processor := fun self =>
  if (0 <? width) && (0 <? height) then
    match resize_image width height self with
    | (Return true, self') =>
        (showinfo "Success" "Image resized successfully", self')
    | (Return false, self') => (showerror "Error" "Failed to resize image", self')
    | (Raise _, self') => (showerror "Error" "Error resizing image", self')
    end
  else (showerror "Invalid Input" "Width and height must be positive", self).

(** ** Sequences of edits *)

Inductive edit `{Numerics} :=
| Grayscale
| Blur (intensity : Z)
| Edges (threshold1 threshold2 : Z)
| Brightness (factor : float)
| Contrast (factor : float)
| Rotate (angle : Z)
| Flip (direction : string)
| Resize (width height : Z).

Definition apply_edit `{Numerics} (e : edit) : method bool :=
  match e with
  | Grayscale => convert_grayscale
  | Blur intensity => apply_blur intensity
  | Edges threshold1 threshold2 => detect_edges threshold1 threshold2
  | Brightness factor => adjust_brightness factor
  | Contrast factor => adjust_contrast factor
  | Rotate angle => rotate_image angle
  | Flip direction => flip_image direction
  | Resize width height => resize_image width height
  end.

(** Runs the edits in order while each returns True; the flag tells
    whether all of them did. *)
Fixpoint apply_edits `{Numerics} (es : list edit) (self : processor)
  : bool * processor :=
  match es with
  | [] => (true, self)
  | e :: es' =>
      match apply_edit e self with
      | (Return true, self') => apply_edits es' self'
      | (_, self') => (false, self')
      end
  end.

(** Calls a method [n] times in a row, whatever it returns, and collects
    the results; a raise ends the run. *)
Fixpoint call_times {A} (n : nat) (m : method A) (self : processor)
  : list (outcome A) * processor :=
  match n with
  | O => ([], self)
  | S n' =>
      match m self with
      | (Return a, self') =>
          let '(rs, self'') := call_times n' m self' in (Return a :: rs, self'')
      | (Raise e, self') => ([Raise e], self')
      end
  end.

(** The history cursor stays within [-1, len(history) - 1]. *)
Definition history_ok (self : processor) : Prop :=
  -1 <= history_index self <= Z.of_nat (length (history self)) - 1.

(** The session right after a successful [load_image]. *)
Definition loaded (img : image) (self : processor) : Prop :=
  original_image self = Some img /\ current_image self = Some img /\
  history self = [] /\ history_index self = -1.

(** The sessions a caller can bring about: starting from [__init__], any
    number of loads, edits, undos, redos and resets, whatever they
    return. *)
Inductive reachable `{Numerics} : processor -> Prop :=
| reach_init : reachable init
| reach_load imread path self r self' :
    reachable self -> load_image imread path self = (r, self') ->
    reachable self'
| reach_edit e self r self' :
    reachable self -> apply_edit e self = (r, self') -> reachable self'
| reach_undo self r self' :
    reachable self -> undo self = (r, self') -> reachable self'
| reach_redo self r self' :
    reachable self -> redo self = (r, self') -> reachable self'
| reach_reset self r self' :
    reachable self -> reset_image self = (r, self') -> reachable self'.

(** ** Concrete data for running the model

    Integer stand-ins for the numerical routines (factors are whole
    numbers, resizing takes the nearest sample), a two-pixel image and the
    session that [load_image] leaves for it. *)
Definition plain_numerics : Numerics :=
  {| float := Z;
     float32 := Z;
     gaussian := fun img _ _ => img;
     Canny := fun g _ _ => g;
     cvtColor_RGB2HSV := fun img => img;
     cvtColor_HSV2RGB := fun img => img;
     scale_clip := fun v factor => Z.min 255 (Z.max 0 (v * factor));
     np_mean := fun l => fold_right Z.add 0 l / Z.max 1 (Z.of_nat (length l));
     stretch_clip := fun x mean factor =>
       Z.min 255 (Z.max 0 ((x - mean) * factor + mean));
     interpolate := fun img width height =>
       tabulate (Z.to_nat height) (Z.to_nat width)
         (fun i j => at_ img (i * rows img / Z.to_nat height)
                             (j * cols img / Z.to_nat width)) |}.

Definition two_pixels : image := [[(10, 20, 30); (40, 50, 60)]].

Definition fresh (img : image) : processor :=
  {| original_image := Some img; current_image := Some img;
     image_path := Some "in.png"; history := []; history_index := -1 |}.

(** The session after two horizontal flips of the two-pixel image. *)
Definition twice_flipped : processor :=
  (call_times 2 (flip_image "horizontal") (fresh two_pixels)).2.

(** The two-pixel image mirrored, and then turned to gray. *)
Definition two_pixels_flipped : image := [[(40, 50, 60); (10, 20, 30)]].
Definition two_pixels_flipped_gray : image := [[(48, 48, 48); (18, 18, 18)]].

(** Two edits of the freshly loaded two-pixel image. *)
Definition two_edits : list (@edit plain_numerics) :=
  [Flip "horizontal"; Grayscale].

(** ** The rest of the session interface *)

Definition get_image (self : processor) : option image := current_image self.

(** RGB to BGR: the same exchange of the first and the third sample. *)
Definition cvtColor_RGB2BGR (img : image) : image :=
  map2d (fun p : pixel => let '(r, g, b) := p in (b, g, r)) img.

(** [save_image]; [imwrite] is [cv2.imwrite] acting on the disk: it gives
    True or False, or raises.  The method drops what [imwrite] gives and
    turns a raise into False. *)
Definition save_image {disk : Type}
    (imwrite : string -> image -> disk -> outcome bool * disk)
    (file_path : string) (self : processor) (d : disk)
  : outcome bool * processor * disk :=
  match current_image self with
  | None => (Return false, self, d)
  | Some img =>
      let image_bgr := cvtColor_RGB2BGR img in
      match imwrite file_path image_bgr d with
      | (Return _, d') => (Return true, self, d')
      | (Raise _, d') => (Return false, self, d')
      end
  end.

(** The calls a user makes between a load and a reset. *)
Inductive action `{Numerics} :=
| DoEdit (e : edit)
| DoUndo
| DoRedo.

Definition perform `{Numerics} (a : action) : method bool :=
  match a with
  | DoEdit e => apply_edit e
  | DoUndo => undo
  | DoRedo => redo
  end.

(** The session after a run of calls, whatever each of them returned. *)
Fixpoint perform_all `{Numerics} (l : list action) (self : processor)
  : processor :=
  match l with
  | [] => self
  | a :: l' => perform_all l' (perform a self).2
  end.

(** The parameters an editing method goes through with: the angles and
    directions tested by [rotate_image] and [flip_image], and the sizes
    the library's resize takes. *)
Definition accepted `{Numerics} (e : edit) : bool :=
  match e with
  | Rotate angle => (angle =? 90) || (angle =? 180) || (angle =? 270)
  | Flip direction =>
      bool_decide (lower direction = "horizontal")
      || bool_decide (lower direction = "vertical")
  | Resize width height => (0 <? width) && (0 <? height)
  | _ => true
  end.

(** Once an image is there it stays: the current buffer is missing only
    while nothing was ever loaded, and then the history is empty; no
    history entry is None. *)
Definition image_kept (self : processor) : Prop :=
  (current_image self = None <-> original_image self = None) /\
  Forall (fun snap => snap <> None) (history self) /\
  (current_image self = None -> history self = []).

(** Every sample of a buffer lies within 0..255. *)
Definition sample_ok (x : Z) : Prop := 0 <= x <= 255.
Definition pixel_ok (p : pixel) : Prop :=
  sample_ok p.1.1 /\ sample_ok p.1.2 /\ sample_ok p.2.
Definition image_ok (img : image) : Prop := Forall (Forall pixel_ok) img.

(** A disk kept in memory, which gives back the array stored under a
    path. *)
Definition memory_disk : Type := string -> option image.
Definition memory_imread (d : memory_disk) (path : string) : option image :=
  d path.
Definition memory_imwrite (path : string) (img : image) (d : memory_disk)
  : outcome bool * memory_disk :=
  (Return true, fun q => if bool_decide (q = path) then Some img else d q).
Definition empty_disk : memory_disk := fun _ => None.

(** ** The undo and redo handlers of [main.py]

    What [ImageEditorGUI.undo] and [ImageEditorGUI.redo] tell the user:
    a line in the status bar after a call that returned True, an
    information box after one that returned False, an error box when the
    call raised (the text of the exception is left out of its message).
    Redrawing the canvas is left out. *)
Inductive notice :=
| set_status (message : string)
| box (m : messagebox).

Definition gui_undo (self : processor) : notice * processor :=
  match undo self with
  | (Return true, self') => (set_status "Undo completed", self')
  | (Return false, self') =>
      (box (showinfo "Info" "No more operations to undo"), self')
  | (Raise _, self') => (box (showerror "Error" "Error during undo"), self')
  end.

Definition gui_redo (self : processor) : notice * processor :=
  match redo self with
  | (Return true, self') => (set_status "Redo completed", self')
  | (Return false, self') =>
      (box (showinfo "Info" "No more operations to redo"), self')
  | (Raise _, self') => (box (showerror "Error" "Error during redo"), self')
  end.

(** * Properties *)

(** ** Arrays *)

Section MatrixFacts.
Context {A : Type} `{Inhabited A}.
Implicit Types (m n : list (list A)) (h w i j : nat) (f : nat -> nat -> A).
Local Open Scope nat_scope.

Lemma length_tabulate h w f : length (tabulate h w f) = h.
Proof. unfold tabulate. by rewrite length_fmap, length_seq. Qed.

Lemma rect_tabulate h w f : rect (tabulate h w f) h w.
Proof.
  split; [apply length_tabulate|].
  unfold tabulate. apply Forall_fmap, Forall_forall. intros i _. simpl.
  by rewrite length_fmap, length_seq.
Qed.

Lemma lookup_total_fmap_seq {B} `{Inhabited B} (g : nat -> B) k i :
  i < k -> (g <$> seq 0 k) !!! i = g i.
Proof.
  intros Hi. apply list_lookup_total_correct.
  by rewrite list_lookup_fmap, lookup_seq_lt.
Qed.

Lemma at_tabulate h w f i j :
  i < h -> j < w -> at_ (tabulate h w f) i j = f i j.
Proof.
  intros Hi Hj. unfold at_, tabulate.
  by rewrite !lookup_total_fmap_seq.
Qed.

Lemma rect_row m h w i : rect m h w -> i < h -> length (m !!! i) = w.
Proof.
  intros [Hl Hr] Hi.
  apply (Forall_lookup_total_1 (fun r => length r = w) m i Hr). lia.
Qed.

Lemma rect_ext m n h w :
  rect m h w -> rect n h w ->
  (forall i j, i < h -> j < w -> at_ m i j = at_ n i j) -> m = n.
Proof.
  intros Hm Hn Hat.
  apply (list_eq_same_length _ _ h); [apply Hn | apply Hm |].
  intros i r r' Hi Hr Hr'.
  pose proof (rect_row m h w i Hm Hi) as Lr.
  pose proof (rect_row n h w i Hn Hi) as Lr'.
  pose proof (Hat i) as Hati. unfold at_ in Hati.
  rewrite (list_lookup_total_correct _ _ _ Hr) in Lr, Hati.
  rewrite (list_lookup_total_correct _ _ _ Hr') in Lr', Hati.
  apply (list_eq_same_length _ _ w); [done | done |].
  intros j x y Hj Hx Hy.
  specialize (Hati j Hi Hj).
  rewrite (list_lookup_total_correct _ _ _ Hx) in Hati.
  by rewrite (list_lookup_total_correct _ _ _ Hy) in Hati.
Qed.

Lemma cols_rect m h w : rect m h w -> 0 < h -> cols m = w.
Proof.
  intros [Hl Hr] Hh. unfold cols. destruct m as [|r m]; simpl in *; [lia|].
  by inversion Hr.
Qed.

Lemma rect_reverse m h w : rect m h w -> rect (reverse m) h w.
Proof.
  intros [Hl Hr]. split; [by rewrite length_reverse|].
  by apply Forall_reverse.
Qed.

Lemma rect_fmap_reverse m h w : rect m h w -> rect (reverse <$> m) h w.
Proof.
  intros [Hl Hr]. split; [by rewrite length_fmap|].
  apply Forall_fmap. eapply Forall_impl; [apply Hr|].
  intros r Hrw. simpl. by rewrite length_reverse.
Qed.

Lemma lookup_total_reverse {B} `{Inhabited B} (l : list B) i :
  i < length l -> reverse l !!! i = l !!! (length l - S i).
Proof.
  intros Hi. rewrite !list_lookup_total_alt. by rewrite reverse_lookup.
Qed.

Lemma at_reverse m h w i j :
  rect m h w -> i < h -> at_ (reverse m) i j = at_ m (h - S i) j.
Proof.
  intros [Hl Hr] Hi. unfold at_.
  rewrite lookup_total_reverse by lia. by rewrite Hl.
Qed.

Lemma at_fmap_reverse m h w i j :
  rect m h w -> i < h -> j < w ->
  at_ (reverse <$> m) i j = at_ m i (w - S j).
Proof.
  intros Hm Hi Hj. unfold at_.
  pose proof (rect_row m h w i Hm Hi) as Lr. destruct Hm as [Hl Hr].
  rewrite (list_lookup_total_correct (reverse <$> m) i (reverse (m !!! i))).
  - rewrite lookup_total_reverse by lia. by rewrite Lr.
  - rewrite list_lookup_fmap, (list_lookup_lookup_total_lt m i) by lia. done.
Qed.
End MatrixFacts.

Section RotationFacts.
Context {A : Type} `{Inhabited A}.
Implicit Types (m : list (list A)) (h w i j : nat).
Local Open Scope nat_scope.

Lemma rect_transpose m h w :
  rect m h w -> 0 < h -> rect (cv2_transpose m) w h.
Proof.
  intros Hm Hh. unfold cv2_transpose.
  rewrite (cols_rect m h w Hm Hh). unfold rows. destruct Hm as [-> _].
  apply rect_tabulate.
Qed.

Lemma at_transpose m h w i j :
  rect m h w -> 0 < h -> i < w -> j < h ->
  at_ (cv2_transpose m) i j = at_ m j i.
Proof.
  intros Hm Hh Hi Hj. unfold cv2_transpose.
  rewrite (cols_rect m h w Hm Hh). unfold rows. destruct Hm as [-> _].
  by rewrite at_tabulate.
Qed.

Lemma transpose_involutive m h w :
  rect m h w -> 0 < h -> 0 < w -> cv2_transpose (cv2_transpose m) = m.
Proof.
  intros Hm Hh Hw.
  pose proof (rect_transpose m h w Hm Hh) as Ht.
  apply (rect_ext _ _ h w); [by apply rect_transpose | done |].
  intros i j Hi Hj.
  rewrite (at_transpose _ w h) by done.
  by rewrite (at_transpose _ h w).
Qed.

Lemma transpose_reverse m h w :
  rect m h w -> 0 < h ->
  cv2_transpose (reverse m) = reverse <$> cv2_transpose m.
Proof.
  intros Hm Hh.
  pose proof (rect_transpose m h w Hm Hh) as Ht.
  pose proof (rect_reverse m h w Hm) as Hr.
  apply (rect_ext _ _ w h);
    [by apply rect_transpose | by apply rect_fmap_reverse |].
  intros i j Hi Hj.
  rewrite (at_transpose _ h w) by done.
  rewrite (at_reverse m h w) by done.
  rewrite (at_fmap_reverse _ w h) by done.
  rewrite (at_transpose _ h w) by (done || lia). done.
Qed.

Lemma transpose_fmap_reverse m h w :
  rect m h w -> 0 < h ->
  cv2_transpose (reverse <$> m) = reverse (cv2_transpose m).
Proof.
  intros Hm Hh.
  pose proof (rect_transpose m h w Hm Hh) as Ht.
  pose proof (rect_fmap_reverse m h w Hm) as Hr.
  apply (rect_ext _ _ w h);
    [by apply rect_transpose | by apply rect_reverse |].
  intros i j Hi Hj.
  rewrite (at_transpose _ h w) by done.
  rewrite (at_fmap_reverse m h w) by done.
  rewrite (at_reverse _ w h) by done.
  rewrite (at_transpose _ h w) by (done || lia). done.
Qed.

Lemma fmap_reverse_involutive m : reverse <$> (reverse <$> m) = m.
Proof.
  induction m as [|r m IH]; [done|].
  rewrite !fmap_cons, reverse_involutive. by f_equal.
Qed.

(** Mirroring rows twice, or lines twice, gives the array back. *)
Lemma flip_flip m (flipCode : Z) :
  cv2_flip (cv2_flip m flipCode) flipCode = m.
Proof.
  unfold cv2_flip.
  destruct (flipCode =? 0)%Z; [apply reverse_involutive|].
  destruct (0 <? flipCode)%Z; [apply fmap_reverse_involutive|].
  by rewrite fmap_reverse, reverse_involutive, fmap_reverse_involutive.
Qed.

Lemma rotate_180_twice m :
  cv2_rotate (cv2_rotate m ROTATE_180) ROTATE_180 = m.
Proof. apply flip_flip. Qed.

Lemma rect_rotate_180 m h w :
  rect m h w -> rect (cv2_rotate m ROTATE_180) h w.
Proof. intros Hm. by apply rect_reverse, rect_fmap_reverse. Qed.

Lemma rect_rotate_ccw m h w :
  rect m h w -> 0 < h ->
  rect (cv2_rotate m ROTATE_90_COUNTERCLOCKWISE) w h.
Proof. intros Hm Hh. by apply rect_reverse, rect_transpose. Qed.

(** A quarter turn counter-clockwise sends the last column to the first
    row. *)
Lemma at_rotate_ccw m h w i j :
  rect m h w -> 0 < h -> i < w -> j < h ->
  at_ (cv2_rotate m ROTATE_90_COUNTERCLOCKWISE) i j = at_ m j (w - S i).
Proof.
  intros Hm Hh Hi Hj. simpl. unfold cv2_flip. simpl.
  rewrite (at_reverse _ w h) by (done || by apply rect_transpose).
  by rewrite (at_transpose _ h w) by (done || lia).
Qed.

Lemma rotate_ccw_twice m h w :
  rect m h w -> 0 < h -> 0 < w ->
  cv2_rotate (cv2_rotate m ROTATE_90_COUNTERCLOCKWISE)
    ROTATE_90_COUNTERCLOCKWISE = cv2_rotate m ROTATE_180.
Proof.
  intros Hm Hh Hw. simpl. unfold cv2_flip. simpl.
  rewrite (transpose_reverse _ w h) by (done || by apply rect_transpose).
  by rewrite (transpose_involutive m h w).
Qed.

Lemma rotate_ccw_four_times m h w :
  rect m h w -> 0 < h -> 0 < w ->
  cv2_rotate (cv2_rotate (cv2_rotate (cv2_rotate m
    ROTATE_90_COUNTERCLOCKWISE) ROTATE_90_COUNTERCLOCKWISE)
    ROTATE_90_COUNTERCLOCKWISE) ROTATE_90_COUNTERCLOCKWISE = m.
Proof.
  intros Hm Hh Hw.
  rewrite (rotate_ccw_twice m h w) by done.
  rewrite (rotate_ccw_twice _ h w) by (done || by apply rect_rotate_180).
  apply rotate_180_twice.
Qed.
End RotationFacts.

(** ** The history *)

Lemma current_image_save self :
  current_image (_save_to_history self) = current_image self.
Proof. reflexivity. Qed.

Lemma original_image_save self :
  original_image (_save_to_history self) = original_image self.
Proof. reflexivity. Qed.

Lemma py_slice_to_length {A} (l : list A) (k : Z) :
  0 <= k <= Z.of_nat (length l) -> length (py_slice_to l k) = Z.to_nat k.
Proof.
  intros Hk. unfold py_slice_to.
  destruct (Z.leb_spec 0 k); [|lia]. rewrite length_take. lia.
Qed.

Lemma py_index_lt {A} (l : list A) (i : Z) :
  0 <= i < Z.of_nat (length l) ->
  exists x, l !! Z.to_nat i = Some x /\ py_index l i = Some x.
Proof.
  intros Hi. unfold py_index. destruct (Z.leb_spec 0 i); [|lia].
  destruct (lookup_lt_is_Some_2 l (Z.to_nat i)) as [x Hx]; [lia|]. eauto.
Qed.

(** After a push the cursor is on the last entry. *)
Lemma save_at_tip self :
  history_ok self ->
  history_index (_save_to_history self)
  = Z.of_nat (length (history (_save_to_history self))) - 1.
Proof.
  intros Hok. unfold history_ok in Hok. unfold _save_to_history. simpl.
  rewrite length_app, py_slice_to_length by lia. simpl. lia.
Qed.

Lemma save_length self :
  history_ok self ->
  length (history (_save_to_history self))
  = S (Z.to_nat (history_index self + 1)).
Proof.
  intros Hok. unfold history_ok in Hok. unfold _save_to_history. simpl.
  rewrite length_app, py_slice_to_length by lia. simpl. lia.
Qed.

Lemma history_ok_save self :
  history_ok self -> history_ok (_save_to_history self).
Proof.
  intros Hok. pose proof (save_at_tip self Hok) as Htip.
  unfold history_ok in *. rewrite Htip.
  pose proof (save_length self Hok). lia.
Qed.

Lemma assign_current_history f self r self' :
  assign_current f self = (r, self') ->
  history self' = history self /\ history_index self' = history_index self
  /\ original_image self' = original_image self.
Proof.
  unfold assign_current. intros Hrun.
  destruct (current_image self) as [img|]; [|by inversion Hrun].
  destruct (f img); by inversion Hrun.
Qed.

Lemma assign_current_ok f self img img' :
  current_image self = Some img -> f img = Return img' ->
  assign_current f (_save_to_history self)
  = (Return true, set_current_image (Some img') (_save_to_history self)).
Proof.
  intros Hcur Hf. unfold assign_current.
  by rewrite current_image_save, Hcur, Hf.
Qed.

Lemma loaded_fresh img : loaded img (fresh img).
Proof. by repeat split. Qed.

Lemma loaded_history_ok img self : loaded img self -> history_ok self.
Proof.
  intros (_ & _ & Hh & Hi). unfold history_ok. rewrite Hh, Hi. simpl. lia.
Qed.

Lemma load_image_loaded imread path self self' :
  load_image imread path self = (Return true, self') ->
  exists img, loaded img self'.
Proof.
  unfold load_image. destruct (imread path) as [img|]; [|by inversion 1].
  inversion 1. exists (cvtColor_BGR2RGB img). by repeat split.
Qed.

(** ** The editing methods *)

(** Every editing method either finds no image and does nothing, or
    pushes the current buffer and then touches nothing but [current_image]. *)
Lemma apply_edit_history `{Numerics} e self r self' :
  apply_edit e self = (r, self') ->
  (r = Return false /\ self' = self /\ current_image self = None) \/
  (current_image self <> None /\
   history self' = history (_save_to_history self) /\
   history_index self' = history_index (_save_to_history self) /\
   original_image self' = original_image self).
Proof.
  destruct e; simpl;
    unfold convert_grayscale, apply_blur, detect_edges, adjust_brightness,
      adjust_contrast, rotate_image, flip_image, resize_image;
    (destruct (bool_decide_reflect (current_image self = None));
      [intros [= <- <-]; by left
      | intros Hrun; right; split; [done|]; revert Hrun]);
    repeat case_match; intros Hrun;
    first [ by apply assign_current_history in Hrun
          | by inversion Hrun ].
Qed.

Lemma apply_edit_true `{Numerics} e self self' :
  apply_edit e self = (Return true, self') ->
  current_image self <> None /\
  history self' = history (_save_to_history self) /\
  history_index self' = history_index (_save_to_history self) /\
  original_image self' = original_image self.
Proof.
  intros Hrun. by destruct (apply_edit_history _ _ _ _ Hrun) as [[? _]|?].
Qed.

Lemma history_ok_apply_edit `{Numerics} e self r self' :
  history_ok self -> apply_edit e self = (r, self') -> history_ok self'.
Proof.
  intros Hok Hrun.
  destruct (apply_edit_history _ _ _ _ Hrun)
    as [(_ & -> & _)|(_ & Hh & Hi & _)]; [done|].
  pose proof (history_ok_save self Hok) as Hs.
  unfold history_ok in *. by rewrite Hh, Hi.
Qed.

(** After a successful edit the cursor is on the last entry, which is the
    buffer the edit started from. *)
Lemma apply_edit_at_tip `{Numerics} e self self' :
  history_ok self -> apply_edit e self = (Return true, self') ->
  history_index self' = Z.of_nat (length (history self')) - 1 /\
  length (history self') = S (Z.to_nat (history_index self + 1)).
Proof.
  intros Hok Hrun. destruct (apply_edit_true _ _ _ Hrun) as (_ & Hh & Hi & _).
  rewrite Hh, Hi. split; [by apply save_at_tip | by apply save_length].
Qed.

Lemma apply_edits_at_tip `{Numerics} es self self' :
  history_index self = Z.of_nat (length (history self)) - 1 ->
  apply_edits es self = (true, self') ->
  history_index self' = Z.of_nat (length (history self')) - 1 /\
  length (history self') = (length (history self) + length es)%nat.
Proof.
  revert self. induction es as [|e es IH]; intros self Htip Hrun; simpl in *.
  - inversion Hrun; subst. split; [done | lia].
  - destruct (apply_edit e self) as [[[]|] self1] eqn:He; try by inversion Hrun.
    assert (history_ok self) as Hok by (unfold history_ok; lia).
    destruct (apply_edit_at_tip _ _ _ Hok He) as [Htip1 Hlen1].
    destruct (IH self1 Htip1 Hrun) as [Htip' Hlen'].
    split; [done|]. rewrite Hlen', Hlen1. lia.
Qed.

(** ** Undo and redo *)

Lemma undo_fails self :
  history_index self <= 0 -> undo self = (Return false, self).
Proof. intros Hi. unfold undo. by destruct (Z.ltb_spec 0 (history_index self)); [lia|]. Qed.

Lemma undo_succeeds self :
  history_ok self -> 0 < history_index self ->
  exists snap,
    history self !! Z.to_nat (history_index self - 1) = Some snap /\
    undo self
    = (Return true,
       set_current_image snap
         (set_history_index (history_index self - 1) self)).
Proof.
  intros Hok Hi. unfold history_ok in Hok. unfold undo.
  destruct (Z.ltb_spec 0 (history_index self)); [|lia]. simpl.
  destruct (py_index_lt (history self) (history_index self - 1))
    as (snap & Hl & Hp); [lia|].
  exists snap. by rewrite Hp.
Qed.

Lemma redo_fails self :
  Z.of_nat (length (history self)) - 1 <= history_index self ->
  redo self = (Return false, self).
Proof.
  intros Hi. unfold redo.
  by destruct (Z.ltb_spec (history_index self)
                 (Z.of_nat (length (history self)) - 1)); [lia|].
Qed.

Lemma history_ok_undo self r self' :
  history_ok self -> undo self = (r, self') -> history_ok self'.
Proof.
  intros Hok Hrun.
  destruct (Z.le_gt_cases (history_index self) 0) as [Hi|Hi].
  - rewrite undo_fails in Hrun by done. by inversion Hrun; subst.
  - destruct (undo_succeeds self Hok Hi) as (snap & _ & Hu).
    rewrite Hu in Hrun. inversion Hrun; subst.
    unfold history_ok in *. simpl. lia.
Qed.

Lemma redo_succeeds self :
  history_ok self ->
  history_index self < Z.of_nat (length (history self)) - 1 ->
  exists snap,
    history self !! Z.to_nat (history_index self + 1) = Some snap /\
    redo self
    = (Return true,
       set_current_image snap
         (set_history_index (history_index self + 1) self)).
Proof.
  intros Hok Hi. unfold history_ok in Hok. unfold redo.
  destruct (Z.ltb_spec (history_index self)
              (Z.of_nat (length (history self)) - 1)); [|lia]. simpl.
  destruct (py_index_lt (history self) (history_index self + 1))
    as (snap & Hl & Hp); [lia|].
  exists snap. by rewrite Hp.
Qed.

Lemma history_ok_redo self r self' :
  history_ok self -> redo self = (r, self') -> history_ok self'.
Proof.
  intros Hok Hrun.
  destruct (Z.lt_ge_cases (history_index self)
              (Z.of_nat (length (history self)) - 1)) as [Hi|Hi].
  - destruct (redo_succeeds self Hok Hi) as (snap & _ & Hu).
    rewrite Hu in Hrun. inversion Hrun; subst.
    unfold history_ok in *. simpl. lia.
  - rewrite redo_fails in Hrun by done. by inversion Hrun; subst.
Qed.

(** The cursor is within the history in every session a caller can bring
    about. *)
Lemma reachable_history_ok `{Numerics} self :
  reachable self -> history_ok self.
Proof.
  induction 1 as [|imread path self r self' _ IH Hrun
                  |e self r self' _ IH Hrun
                  |self r self' _ IH Hrun
                  |self r self' _ IH Hrun
                  |self r self' _ IH Hrun].
  - unfold history_ok. simpl. lia.
  - unfold load_image in Hrun.
    destruct (imread path); inversion Hrun; subst; [|done].
    unfold history_ok. simpl. lia.
  - by apply (history_ok_apply_edit e self r).
  - by apply (history_ok_undo self r).
  - by apply (history_ok_redo self r).
  - unfold reset_image in Hrun.
    destruct (original_image self); inversion Hrun; subst; [|done].
    unfold history_ok. simpl. lia.
Qed.

(** C5: whenever the cursor is within the history, [undo] returns True
    exactly when the cursor is above 0; it then moves the cursor one entry
    down and makes the snapshot found there the current buffer; with the
    cursor at 0 or below it returns False and leaves the whole session as
    it was, without raising. *)
Theorem undo_exactly_when_cursor_positive self :
  history_ok self ->
  (undo self).1 = Return (bool_decide (0 < history_index self)) /\
  (0 < history_index self ->
   exists snap,
     history self !! Z.to_nat (history_index self - 1) = Some snap /\
     undo self
     = (Return true,
        set_current_image snap
          (set_history_index (history_index self - 1) self))) /\
  (history_index self <= 0 -> undo self = (Return false, self)).
Proof.
  intros Hok. split; [|split].
  - destruct (Z.le_gt_cases (history_index self) 0) as [Hi|Hi].
    + rewrite undo_fails by done. simpl. by rewrite bool_decide_false by lia.
    + destruct (undo_succeeds self Hok Hi) as (snap & _ & ->). simpl.
      by rewrite bool_decide_true by lia.
  - by apply undo_succeeds.
  - apply undo_fails.
Qed.

Lemma undo_exactly_when_cursor_positive_witness :
  history_ok twice_flipped /\
  (undo twice_flipped).1
  = Return (bool_decide (0 < history_index twice_flipped)).
Proof.
  assert (history_ok twice_flipped) as Hok.
  { unfold history_ok. vm_compute. split; discriminate. }
  split; [exact Hok|].
  exact (proj1 (undo_exactly_when_cursor_positive twice_flipped Hok)).
Defined.

(** C8: for an intensity between 1 and 31 the kernel side that [apply_blur]
    hands to the blur is odd and at least 1: an even intensity is bumped
    up by one, an odd one is kept; the blur is run with that side as both
    kernel width and kernel height. *)
Theorem blur_kernel_odd `{Numerics} intensity :
  1 <= intensity <= 31 ->
  let k := blur_kernel intensity in
  Z.odd k = true /\ 1 <= k /\
  (Z.even intensity = true -> k = intensity + 1) /\
  (Z.odd intensity = true -> k = intensity) /\
  forall self img,
    current_image self = Some img ->
    apply_blur intensity self
    = (Return true,
       set_current_image (Some (gaussian img k k)) (_save_to_history self)).
Proof.
  intros Hrange k.
  assert (k = if Z.odd intensity then intensity else intensity + 1) as Hk.
  { unfold k, blur_kernel. rewrite Zmod_odd.
    destruct (Z.odd intensity); simpl; lia. }
  assert (Z.odd k = true) as Hodd.
  { rewrite Hk. destruct (Z.odd intensity) eqn:Ho; [done|].
    by rewrite Z.add_1_r, Z.odd_succ, <- Z.negb_odd, Ho. }
  assert (1 <= k) as Hpos by (rewrite Hk; destruct (Z.odd intensity); lia).
  repeat split; try done.
  - rewrite <- Z.negb_odd. intros He. rewrite Hk.
    by destruct (Z.odd intensity).
  - intros Ho. by rewrite Hk, Ho.
  - intros self img Hcur. unfold apply_blur.
    rewrite bool_decide_false by (by rewrite Hcur).
    apply (assign_current_ok _ self img); [done|]. fold k.
    unfold cv2_GaussianBlur.
    assert (k mod 2 = 1) as Hm by (by rewrite Zmod_odd, Hodd).
    rewrite Hm. destruct (Z.ltb_spec 0 k); [done | lia].
Qed.

Lemma blur_kernel_odd_witness :
  1 <= 4 <= 31 /\ @blur_kernel 4 = 5 /\
  (@apply_blur plain_numerics 4 (fresh two_pixels)).1 = Return true.
Proof.
  assert (1 <= 4 <= 31) as Hrange by lia.
  pose proof (@blur_kernel_odd plain_numerics 4 Hrange) as (_ & _ & He & _ & Hrun).
  split; [exact Hrange|]. split; [exact (He eq_refl)|].
  by rewrite (Hrun (fresh two_pixels) two_pixels eq_refl).
Defined.

(** ** Grayscale *)

Lemma rgb2gray_pixel_gray (y : Z) : rgb2gray_pixel (y, y, y) = y.
Proof.
  unfold rgb2gray_pixel, CV_DESCALE, gray_shift, RY15, GY15, BY15.
  rewrite Z.shiftr_div_pow2 by lia. symmetry.
  apply (Z.div_unique_pos _ _ y 16384); [lia|].
  change (Z.shiftl 1 (15 - 1)) with 16384. change (2 ^ 15) with 32768. lia.
Qed.

Lemma gray_of_gray (g : gray_image) :
  cvtColor_RGB2GRAY (cvtColor_GRAY2RGB g) = g.
Proof.
  unfold cvtColor_RGB2GRAY, cvtColor_GRAY2RGB, map2d.
  induction g as [|r g IH]; [done|]. rewrite !fmap_cons, IH. f_equal.
  induction r as [|y r IHr]; [done|].
  rewrite !fmap_cons, IHr. by rewrite rgb2gray_pixel_gray.
Qed.

Lemma convert_grayscale_ok self img :
  current_image self = Some img ->
  convert_grayscale self
  = (Return true,
     set_current_image
       (Some (cvtColor_GRAY2RGB (cvtColor_RGB2GRAY img)))
       (_save_to_history self)).
Proof.
  intros Hcur. unfold convert_grayscale.
  rewrite bool_decide_false by (by rewrite Hcur).
  by apply (assign_current_ok _ self img).
Qed.

(** C9: with an image loaded, converting to grayscale twice in a row
    succeeds both times and leaves the same current buffer as converting
    once. *)
Theorem grayscale_idempotent self img :
  current_image self = Some img ->
  exists self1 self2,
    convert_grayscale self = (Return true, self1) /\
    convert_grayscale self1 = (Return true, self2) /\
    current_image self2 = current_image self1.
Proof.
  intros Hcur. eexists _, _.
  split; [by apply convert_grayscale_ok|].
  split; [by apply convert_grayscale_ok|].
  simpl. by rewrite gray_of_gray.
Qed.

Lemma grayscale_idempotent_witness :
  current_image (fresh two_pixels) = Some two_pixels /\
  exists self1 self2,
    convert_grayscale (fresh two_pixels) = (Return true, self1) /\
    convert_grayscale self1 = (Return true, self2) /\
    current_image self2 = current_image self1.
Proof.
  split; [reflexivity|].
  exact (grayscale_idempotent (fresh two_pixels) two_pixels eq_refl).
Defined.

(** ** Flip *)

Lemma flip_image_horizontal direction self img :
  current_image self = Some img -> lower direction = "horizontal" ->
  flip_image direction self
  = (Return true,
     set_current_image (Some (cv2_flip img 1)) (_save_to_history self)).
Proof.
  intros Hcur Hd. unfold flip_image.
  rewrite bool_decide_false by (by rewrite Hcur).
  rewrite bool_decide_true by done. by apply (assign_current_ok _ self img).
Qed.

Lemma flip_image_vertical direction self img :
  current_image self = Some img -> lower direction = "vertical" ->
  flip_image direction self
  = (Return true,
     set_current_image (Some (cv2_flip img 0)) (_save_to_history self)).
Proof.
  intros Hcur Hd. unfold flip_image.
  rewrite bool_decide_false by (by rewrite Hcur).
  rewrite bool_decide_false by (by rewrite Hd).
  rewrite bool_decide_true by done. by apply (assign_current_ok _ self img).
Qed.

(** C10: with an image loaded, a direction whose lower-case form is
    "horizontal" or "vertical" makes [flip_image] succeed, with the very
    result of the call made with the lower-case direction. *)
Theorem flip_direction_case_insensitive direction self img :
  current_image self = Some img ->
  lower direction = "horizontal" \/ lower direction = "vertical" ->
  (flip_image direction self).1 = Return true /\
  flip_image direction self = flip_image (lower direction) self.
Proof.
  intros Hcur [Hd|Hd]; rewrite Hd.
  - rewrite (flip_image_horizontal direction self img) by done.
    by rewrite (flip_image_horizontal "horizontal" self img).
  - rewrite (flip_image_vertical direction self img) by done.
    by rewrite (flip_image_vertical "vertical" self img).
Qed.

Lemma flip_direction_case_insensitive_witness :
  current_image (fresh two_pixels) = Some two_pixels /\
  (lower "HoriZONTAL" = "horizontal" \/ lower "HoriZONTAL" = "vertical") /\
  (flip_image "HoriZONTAL" (fresh two_pixels)).1 = Return true /\
  flip_image "HoriZONTAL" (fresh two_pixels)
  = flip_image (lower "HoriZONTAL") (fresh two_pixels).
Proof.
  split; [reflexivity|]. split; [left; reflexivity|].
  exact (flip_direction_case_insensitive "HoriZONTAL" (fresh two_pixels)
           two_pixels eq_refl (or_introl eq_refl)).
Defined.

(** ** Repeated calls *)

(** A method that always pushes and then replaces the current buffer by
    [g] of it, called [n] times. *)
Lemma call_times_edit (m : method bool) (g : image -> image) n :
  (forall s img,
     current_image s = Some img ->
     m s = (Return true,
            set_current_image (Some (g img)) (_save_to_history s))) ->
  forall self img,
    current_image self = Some img ->
    (call_times n m self).1 = replicate n (Return true) /\
    current_image (call_times n m self).2 = Some (Nat.iter n g img).
Proof.
  intros Hm. induction n as [|n IH]; intros self img Hcur; [done|].
  simpl call_times. rewrite (Hm self img Hcur).
  destruct (call_times n m _) as [rs self''] eqn:Hrun.
  destruct (IH (set_current_image (Some (g img)) (_save_to_history self))
              (g img) eq_refl) as [Hrs Hc].
  rewrite Hrun in Hrs, Hc. simpl in *. rewrite Hrs, Hc.
  split; [done|]. by rewrite <- Nat.iter_succ_r.
Qed.

(** ** Rotation *)

Lemma rotate_image_90 self img :
  current_image self = Some img ->
  rotate_image 90 self
  = (Return true,
     set_current_image (Some (cv2_rotate img ROTATE_90_COUNTERCLOCKWISE))
       (_save_to_history self)).
Proof.
  intros Hcur. unfold rotate_image.
  rewrite bool_decide_false by (by rewrite Hcur). simpl.
  by apply (assign_current_ok _ self img).
Qed.

Lemma rotate_image_180 self img :
  current_image self = Some img ->
  rotate_image 180 self
  = (Return true,
     set_current_image (Some (cv2_rotate img ROTATE_180))
       (_save_to_history self)).
Proof.
  intros Hcur. unfold rotate_image.
  rewrite bool_decide_false by (by rewrite Hcur). simpl.
  by apply (assign_current_ok _ self img).
Qed.

(** C7: with a rectangular, non-empty image loaded, two horizontal flips
    in a row succeed and give the buffer back; so do four rotations by 90
    and two rotations by 180; the rotation by 90 is the counter-clockwise
    quarter turn, which brings the last column to the first row. *)
Theorem inverse_pairs self img (h w : nat) :
  current_image self = Some img ->
  rect img h w -> (0 < h)%nat -> (0 < w)%nat ->
  let flips := call_times 2 (flip_image "horizontal") self in
  let quarters := call_times 4 (rotate_image 90) self in
  let halves := call_times 2 (rotate_image 180) self in
  (flips.1 = replicate 2 (Return true) /\ current_image flips.2 = Some img) /\
  (quarters.1 = replicate 4 (Return true) /\
   current_image quarters.2 = Some img) /\
  (halves.1 = replicate 2 (Return true) /\
   current_image halves.2 = Some img) /\
  exists self1 img1,
    rotate_image 90 self = (Return true, self1) /\
    current_image self1 = Some img1 /\ rect img1 w h /\
    forall i j : nat,
      (i < w)%nat -> (j < h)%nat -> at_ img1 i j = at_ img j (w - S i).
Proof.
  intros Hcur Hrect Hh Hw. cbv zeta. repeat split.
  - by apply (call_times_edit _ (fun m => cv2_flip m 1) 2
                (fun s i Hs => flip_image_horizontal "horizontal" s i Hs eq_refl)
                self img).
  - destruct (call_times_edit _ (fun m => cv2_flip m 1) 2
                (fun s i Hs => flip_image_horizontal "horizontal" s i Hs eq_refl)
                self img Hcur) as [_ ->].
    simpl. by rewrite flip_flip.
  - by apply (call_times_edit _
                (fun m => cv2_rotate m ROTATE_90_COUNTERCLOCKWISE) 4
                rotate_image_90 self img).
  - destruct (call_times_edit _
                (fun m => cv2_rotate m ROTATE_90_COUNTERCLOCKWISE) 4
                rotate_image_90 self img Hcur) as [_ ->].
    cbn [Nat.iter nat_rect]. by rewrite (rotate_ccw_four_times img h w).
  - by apply (call_times_edit _ (fun m => cv2_rotate m ROTATE_180) 2
                rotate_image_180 self img).
  - destruct (call_times_edit _ (fun m => cv2_rotate m ROTATE_180) 2
                rotate_image_180 self img Hcur) as [_ ->].
    cbn [Nat.iter nat_rect]. by rewrite rotate_180_twice.
  - eexists _, _. split; [by apply rotate_image_90|].
    split; [done|]. split; [by apply rect_rotate_ccw|].
    intros i j Hi Hj. by apply (at_rotate_ccw img h w).
Qed.

Lemma inverse_pairs_witness :
  current_image (fresh two_pixels) = Some two_pixels /\
  rect two_pixels 1 2 /\ (0 < 1)%nat /\ (0 < 2)%nat /\
  current_image (call_times 4 (rotate_image 90) (fresh two_pixels)).2
  = Some two_pixels.
Proof.
  assert (rect two_pixels 1 2) as Hrect.
  { split; [reflexivity|]. repeat constructor. }
  split; [reflexivity|]. split; [exact Hrect|].
  split; [apply Nat.lt_0_1|]. split; [apply Nat.lt_0_2|].
  exact (proj2 (proj1 (proj2
    (inverse_pairs (fresh two_pixels) two_pixels 1 2 eq_refl Hrect
       Nat.lt_0_1 Nat.lt_0_2)))).
Defined.

(** ** Branches of the history *)

(** C4: after a load, at least two successful edits and one undo (which
    then succeeds), any further successful edit leaves nothing to redo:
    [redo] returns False and the session stays as it is. *)
Theorem redo_fails_after_new_branch `{Numerics} img self0 es self1 :
  loaded img self0 -> (2 <= length es)%nat ->
  apply_edits es self0 = (true, self1) ->
  exists self2,
    undo self1 = (Return true, self2) /\
    forall e self3,
      apply_edit e self2 = (Return true, self3) ->
      redo self3 = (Return false, self3).
Proof.
  intros Hload Hn Hrun.
  pose proof Hload as (_ & _ & Hh & Hi).
  assert (history_index self0 = Z.of_nat (length (history self0)) - 1) as Htip
    by (by rewrite Hh, Hi).
  destruct (apply_edits_at_tip es self0 self1 Htip Hrun) as [Htip1 Hlen1].
  rewrite Hh in Hlen1. simpl in Hlen1.
  assert (history_ok self1) as Hok1 by (unfold history_ok; lia).
  destruct (undo_succeeds self1 Hok1) as (snap & _ & Hundo); [lia|].
  eexists. split; [exact Hundo|].
  intros e self3 He.
  pose proof (history_ok_undo _ _ _ Hok1 Hundo) as Hok2.
  destruct (apply_edit_at_tip _ _ _ Hok2 He) as [Htip3 _].
  apply redo_fails. lia.
Qed.

Lemma redo_fails_after_new_branch_witness :
  loaded two_pixels (fresh two_pixels) /\ (2 <= length two_edits)%nat /\
  exists self1 self2,
    apply_edits two_edits (fresh two_pixels) = (true, self1) /\
    undo self1 = (Return true, self2) /\
    redo (@apply_edit plain_numerics (Rotate 90) self2).2
    = (Return false, (@apply_edit plain_numerics (Rotate 90) self2).2).
Proof.
  split; [apply loaded_fresh|]. split; [apply Nat.le_refl|].
  destruct (@redo_fails_after_new_branch plain_numerics two_pixels
              (fresh two_pixels) two_edits
              (apply_edits two_edits (fresh two_pixels)).2
              (loaded_fresh two_pixels) (Nat.le_refl 2) eq_refl)
    as (self2 & Hundo & Hredo).
  exists (apply_edits two_edits (fresh two_pixels)).2, self2.
  split; [reflexivity|]. split; [exact Hundo|].
  apply (Hredo (Rotate 90)).
  destruct (apply_edit (Rotate 90) self2) as [r self3] eqn:He. simpl.
  f_equal.
  assert (current_image self2 <> None) as Hcur.
  { vm_compute in Hundo. by inversion Hundo. }
  destruct (current_image self2) as [i|] eqn:Hc; [|done].
  simpl in He. rewrite (rotate_image_90 self2 i Hc) in He. by inversion He.
Defined.

(** The first edit after a load cannot be undone: its snapshot sits at
    position 0, where [undo] stops. *)
Lemma first_edit_not_undone `{Numerics} img self0 e self1 :
  loaded img self0 -> apply_edit e self0 = (Return true, self1) ->
  undo self1 = (Return false, self1).
Proof.
  intros Hload He.
  destruct (apply_edit_at_tip _ _ _ (loaded_history_ok _ _ Hload) He)
    as [Htip Hlen].
  destruct Hload as (_ & _ & _ & Hi). rewrite Hi in Hlen. simpl in Hlen.
  apply undo_fails. lia.
Qed.

(** C2: one edit after a load, then [undo]: it returns False and the
    buffer stays the edited one, not the loaded one.  Two edits after a
    load, two [undo] and two [redo]: the buffer ends at the state after
    the first edit, not after the second, which no snapshot holds. *)
Theorem undo_redo_round_trip_broken :
  let self1 := (flip_image "horizontal" (fresh two_pixels)).2 in
  let self2 := (apply_edits two_edits (fresh two_pixels)).2 in
  let undone := call_times 2 undo self2 in
  let redone := call_times 2 redo undone.2 in
  (flip_image "horizontal" (fresh two_pixels)).1 = Return true /\
  undo self1 = (Return false, self1) /\
  current_image self1 = Some two_pixels_flipped /\
  (apply_edits two_edits (fresh two_pixels)).1 = true /\
  current_image self2 = Some two_pixels_flipped_gray /\
  undone.1 = [Return true; Return false] /\
  current_image undone.2 = Some two_pixels /\
  redone.1 = [Return true; Return false] /\
  current_image redone.2 = Some two_pixels_flipped.
Proof. cbv zeta. repeat split; reflexivity. Qed.

(** ** Rejected parameters *)

Lemma rotate_image_rejected angle self img :
  current_image self = Some img ->
  angle <> 90 -> angle <> 180 -> angle <> 270 ->
  rotate_image angle self = (Return false, _save_to_history self).
Proof.
  intros Hcur H90 H180 H270. unfold rotate_image.
  rewrite bool_decide_false by (by rewrite Hcur).
  destruct (Z.eqb_spec angle 90); [done|].
  destruct (Z.eqb_spec angle 180); [done|].
  by destruct (Z.eqb_spec angle 270).
Qed.

Lemma flip_image_rejected direction self img :
  current_image self = Some img ->
  lower direction <> "horizontal" -> lower direction <> "vertical" ->
  flip_image direction self = (Return false, _save_to_history self).
Proof.
  intros Hcur Hh Hv. unfold flip_image.
  rewrite bool_decide_false by (by rewrite Hcur).
  by rewrite !bool_decide_false by done.
Qed.

(** C1: a rotation by 45 and a flip along "diagonal" of a freshly loaded
    image both return False and keep the current buffer, but the history
    has already grown from no entry to one and the cursor has moved from
    -1 to 0: the push is made before the parameter is looked at. *)
Theorem rejected_parameter_still_pushes :
  let self0 := fresh two_pixels in
  let rotated := rotate_image 45 self0 in
  let flipped := flip_image "diagonal" self0 in
  length (history self0) = 0%nat /\ history_index self0 = -1 /\
  rotated.1 = Return false /\
  current_image rotated.2 = current_image self0 /\
  length (history rotated.2) = 1%nat /\ history_index rotated.2 = 0 /\
  flipped.1 = Return false /\
  current_image flipped.2 = current_image self0 /\
  length (history flipped.2) = 1%nat /\ history_index flipped.2 = 0.
Proof. cbv zeta. repeat split; reflexivity. Qed.

(** ** Resizing *)

Lemma resize_image_raises `{Numerics} width height self img :
  current_image self = Some img -> width <= 0 \/ height <= 0 ->
  resize_image width height self = (Raise cv2_error, _save_to_history self).
Proof.
  intros Hcur Hsize. unfold resize_image.
  rewrite bool_decide_false by (by rewrite Hcur).
  unfold assign_current. rewrite current_image_save, Hcur. unfold cv2_resize.
  destruct (Z.leb_spec width 0); [done|].
  destruct (Z.leb_spec height 0); [done | lia].
Qed.

(** C3, as stated, fails: resizing the freshly loaded two-pixel image to
    0 by 100 does not report a failure with the session untouched; the
    error of the library passes through the call, and the current buffer
    and the history depth are not both what they were: the history has
    one entry more. *)
Lemma resize_nonpositive_not_silent :
  let self0 := fresh two_pixels in
  let run := @resize_image plain_numerics 0 100 self0 in
  run.1 = Raise cv2_error /\
  ~ (current_image run.2 = current_image self0 /\
     length (history run.2) = length (history self0)).
Proof.
  cbv zeta. split; [reflexivity|].
  intros [_ Hdepth]. vm_compute in Hdepth. discriminate Hdepth.
Qed.

(** C3, amended: a width or height that is not positive is turned down by
    the resize dialog, which shows "Invalid Input" and leaves the whole
    session as it is; [resize_image] itself makes no check: called with
    such a size it does not return, the error of the library's resize
    passes through it, and the current buffer is the one before the
    call. *)
Theorem resize_size_checked_by_dialog `{Numerics} width height self img :
  current_image self = Some img -> width <= 0 \/ height <= 0 ->
  apply_resize width height self
  = (showerror "Invalid Input" "Width and height must be positive", self) /\
  (resize_image width height self).1 = Raise cv2_error /\
  current_image (resize_image width height self).2 = current_image self.
Proof.
  intros Hcur Hsize. split.
  - unfold apply_resize.
    destruct (Z.ltb_spec 0 width); [|done].
    destruct (Z.ltb_spec 0 height); [lia | done].
  - by rewrite (resize_image_raises width height self img).
Qed.

Lemma resize_size_checked_by_dialog_witness :
  current_image (fresh two_pixels) = Some two_pixels /\
  (0 <= 0 \/ 100 <= 0) /\
  @apply_resize plain_numerics 0 100 (fresh two_pixels)
  = (showerror "Invalid Input" "Width and height must be positive",
     fresh two_pixels).
Proof.
  split; [reflexivity|]. split; [left; apply Z.le_refl|].
  exact (proj1 (@resize_size_checked_by_dialog plain_numerics 0 100
                  (fresh two_pixels) two_pixels eq_refl
                  (or_introl (Z.le_refl 0)))).
Defined.

(** * Further properties of the session *)

(** ** An image, once loaded, stays *)

Lemma py_index_elem {A} (l : list A) (i : Z) (x : A) :
  py_index l i = Some x -> exists k : nat, l !! k = Some x.
Proof.
  unfold py_index. destruct (0 <=? i); [by eauto|].
  destruct (0 <=? Z.of_nat (length l) + i); [by eauto | done].
Qed.

Lemma Forall_py_slice_to {A} (P : A -> Prop) (l : list A) (k : Z) :
  Forall P l -> Forall P (py_slice_to l k).
Proof. intros Hl. unfold py_slice_to. destruct (0 <=? k); by apply Forall_take. Qed.

Lemma assign_current_keeps f self r self' :
  assign_current f self = (r, self') ->
  current_image self <> None -> current_image self' <> None.
Proof.
  unfold assign_current. intros Hrun Hcur.
  destruct (current_image self) as [img|] eqn:Hc; [|done].
  destruct (f img); inversion Hrun; subst; simpl; [done|].
  by rewrite Hc.
Qed.

Lemma apply_edit_keeps `{Numerics} e self r self' :
  apply_edit e self = (r, self') ->
  current_image self <> None -> current_image self' <> None.
Proof.
  intros Hrun Hcur. revert Hrun.
  destruct e; simpl;
    unfold convert_grayscale, apply_blur, detect_edges, adjust_brightness,
      adjust_contrast, rotate_image, flip_image, resize_image;
    rewrite bool_decide_false by done;
    repeat case_match; intros Hrun;
    first [ by apply assign_current_keeps in Hrun
          | by inversion Hrun; subst ].
Qed.

Lemma image_kept_apply_edit `{Numerics} e self r self' :
  image_kept self -> apply_edit e self = (r, self') -> image_kept self'.
Proof.
  intros (Hiff & Hall & Hnil) Hrun.
  destruct (apply_edit_history _ _ _ _ Hrun)
    as [(_ & -> & _)|(Hcur & Hh & _ & Ho)]; [done|].
  pose proof (apply_edit_keeps _ _ _ _ Hrun Hcur) as Hcur'.
  split; [|split].
  - rewrite Ho. tauto.
  - rewrite Hh. unfold _save_to_history. simpl.
    apply Forall_app. split; [by apply Forall_py_slice_to|].
    by apply Forall_singleton.
  - done.
Qed.

Lemma image_kept_snapshot self snap (k : nat) :
  image_kept self -> history self !! k = Some snap ->
  image_kept (set_current_image (deepcopy snap) self) /\ snap <> None.
Proof.
  intros (Hiff & Hall & Hnil) Hk.
  assert (snap <> None) as Hsnap.
  { by apply (Forall_lookup_1 _ _ _ _ Hall Hk). }
  split; [|done].
  assert (current_image self <> None) as Hcur.
  { intros Hc. rewrite (Hnil Hc) in Hk. by rewrite lookup_nil in Hk. }
  split; [|split]; simpl; [|done|done].
  unfold deepcopy. tauto.
Qed.

Lemma image_kept_index self i :
  image_kept self -> image_kept (set_history_index i self).
Proof. done. Qed.

Lemma image_kept_undo self r self' :
  image_kept self -> undo self = (r, self') -> image_kept self'.
Proof.
  intros Hk. unfold undo. destruct (0 <? history_index self); [|by intros [= <- <-]].
  destruct (py_index _ _) as [snap|] eqn:Hp; intros [= <- <-]; [|done].
  apply py_index_elem in Hp as [k Hp].
  by apply (image_kept_snapshot _ snap k).
Qed.

Lemma image_kept_redo self r self' :
  image_kept self -> redo self = (r, self') -> image_kept self'.
Proof.
  intros Hk. unfold redo.
  destruct (history_index self <? _); [|by intros [= <- <-]].
  destruct (py_index _ _) as [snap|] eqn:Hp; intros [= <- <-]; [|done].
  apply py_index_elem in Hp as [k Hp].
  by apply (image_kept_snapshot _ snap k).
Qed.

Lemma reachable_image_kept `{Numerics} self :
  reachable self -> image_kept self.
Proof.
  induction 1 as [|imread path self r self' _ IH Hrun
                  |e self r self' _ IH Hrun
                  |self r self' _ IH Hrun
                  |self r self' _ IH Hrun
                  |self r self' _ IH Hrun].
  - by repeat split.
  - unfold load_image in Hrun.
    destruct (imread path); inversion Hrun; subst; [|done].
    by repeat split.
  - by apply (image_kept_apply_edit e self r).
  - by apply (image_kept_undo self r).
  - by apply (image_kept_redo self r).
  - unfold reset_image in Hrun.
    destruct (original_image self) eqn:Ho; inversion Hrun; subst; [|done].
    by repeat split.
Qed.

(** X1: in every session a caller can bring about, the current buffer is
    missing exactly when no image was ever loaded, no history entry is
    None, and the history is empty while no image is there: no call ever
    loses the image. *)
Theorem image_never_lost `{Numerics} self :
  reachable self ->
  (current_image self = None <-> original_image self = None) /\
  (forall (k : nat) snap, history self !! k = Some snap -> snap <> None) /\
  (current_image self = None -> history self = [] /\ history_index self = -1).
Proof.
  intros Hreach.
  pose proof (reachable_image_kept self Hreach) as (Hiff & Hall & Hnil).
  pose proof (reachable_history_ok self Hreach) as Hok.
  split; [done|]. split.
  - intros k snap Hk. by apply (Forall_lookup_1 _ _ _ _ Hall Hk).
  - intros Hc. split; [by apply Hnil|].
    unfold history_ok in Hok. rewrite (Hnil Hc) in Hok. simpl in Hok. lia.
Qed.

Lemma image_never_lost_witness :
  @reachable plain_numerics twice_flipped /\
  (current_image twice_flipped = None <-> original_image twice_flipped = None).
Proof.
  assert (@reachable plain_numerics twice_flipped) as Hreach.
  { apply (reach_edit (Flip "horizontal")
             (flip_image "horizontal" (fresh two_pixels)).2
             (Return true) twice_flipped); [|reflexivity].
    apply (reach_edit (Flip "horizontal") (fresh two_pixels) (Return true)
             (flip_image "horizontal" (fresh two_pixels)).2); [|reflexivity].
    apply (reach_load (fun _ => Some (cvtColor_RGB2BGR two_pixels)) "in.png"
             init (Return true) (fresh two_pixels));
      [apply reach_init | reflexivity]. }
  split; [exact Hreach|].
  exact (proj1 (@image_never_lost plain_numerics twice_flipped Hreach)).
Defined.

(** X2: while no image is loaded, every editing method, [undo], [redo]
    and [reset_image] return False and leave the session exactly as it
    is, and the dimensions reported are (0, 0). *)
Theorem nothing_happens_without_image `{Numerics} self :
  reachable self -> current_image self = None ->
  (forall e, apply_edit e self = (Return false, self)) /\
  undo self = (Return false, self) /\
  redo self = (Return false, self) /\
  reset_image self = (Return false, self) /\
  get_image_dimensions self = (0, 0).
Proof.
  intros Hreach Hcur.
  pose proof (reachable_image_kept self Hreach) as (Hiff & _ & Hnil).
  pose proof (reachable_history_ok self Hreach) as Hok.
  unfold history_ok in Hok. rewrite (Hnil Hcur) in Hok. simpl in Hok.
  repeat split.
  - intros e.
    destruct e; simpl;
      unfold convert_grayscale, apply_blur, detect_edges, adjust_brightness,
        adjust_contrast, rotate_image, flip_image, resize_image;
      by rewrite bool_decide_true by done.
  - apply undo_fails. lia.
  - apply redo_fails. rewrite (Hnil Hcur). simpl. lia.
  - unfold reset_image. by rewrite (proj1 Hiff Hcur).
  - unfold get_image_dimensions. by rewrite Hcur.
Qed.

Lemma nothing_happens_without_image_witness :
  @reachable plain_numerics init /\ current_image init = None /\
  @apply_edit plain_numerics (Rotate 90) init = (Return false, init).
Proof.
  split; [apply reach_init|]. split; [reflexivity|].
  exact (proj1 (@nothing_happens_without_image plain_numerics init
                  reach_init eq_refl) (Rotate 90)).
Defined.



(** ** Which edits go through *)

Lemma blur_kernel_valid intensity :
  0 < blur_kernel intensity /\ blur_kernel intensity mod 2 = 1.
Proof.
  unfold blur_kernel. split; [lia|].
  destruct (Z.eqb_spec (intensity mod 2) 1) as [Hodd|Heven].
  - destruct (Z.max_spec 1 intensity) as [[_ ->]|[_ ->]]; done.
  - assert (intensity mod 2 = 0) as H0.
    { pose proof (Z.mod_pos_bound intensity 2). lia. }
    assert ((intensity + 1) mod 2 = 1) as H1.
    { rewrite Z.add_mod, H0 by lia. done. }
    destruct (Z.max_spec 1 (intensity + 1)) as [[_ ->]|[_ ->]]; done.
Qed.

Lemma cv2_GaussianBlur_kernel `{Numerics} img intensity :
  cv2_GaussianBlur img (blur_kernel intensity, blur_kernel intensity)
  = Return (gaussian img (blur_kernel intensity) (blur_kernel intensity)).
Proof.
  destruct (blur_kernel_valid intensity) as [Hpos Hodd].
  unfold cv2_GaussianBlur. rewrite Hodd.
  by destruct (Z.ltb_spec 0 (blur_kernel intensity)); [|lia].
Qed.



(** X5: with an image loaded and the cursor within the history, an
    editing method, whatever its result, keeps the snapshots up to the
    cursor, drops those above it, appends the buffer it started from and
    puts the cursor on that new last entry. *)
Theorem edit_records_buffer_before `{Numerics} e self img r self' :
  history_ok self -> current_image self = Some img ->
  apply_edit e self = (r, self') ->
  (forall k : nat,
     Z.of_nat k <= history_index self ->
     history self' !! k = history self !! k) /\
  history self' !! Z.to_nat (history_index self + 1) = Some (Some img) /\
  length (history self') = Z.to_nat (history_index self + 2) /\
  history_index self' = history_index self + 1.
Proof.
  intros Hok Hcur Hrun.
  destruct (apply_edit_history _ _ _ _ Hrun)
    as [(_ & _ & Hnone)|(_ & Hh & Hi & _)]; [by rewrite Hcur in Hnone|].
  unfold history_ok in Hok.
  assert (history self'
          = take (Z.to_nat (history_index self + 1)) (history self)
            ++ [Some img]) as Hh'.
  { rewrite Hh. unfold _save_to_history. simpl. rewrite Hcur.
    unfold py_slice_to. by destruct (Z.leb_spec 0 (history_index self + 1)); [|lia]. }
  assert (length (take (Z.to_nat (history_index self + 1)) (history self))
          = Z.to_nat (history_index self + 1)) as Hlen.
  { rewrite length_take. lia. }
  repeat split.
  - intros k Hk. rewrite Hh'.
    rewrite lookup_app_l by (rewrite Hlen; lia).
    apply lookup_take_lt. lia.
  - rewrite Hh'. rewrite lookup_app_r by (rewrite Hlen; lia).
    by rewrite Hlen, Nat.sub_diag.
  - rewrite Hh', length_app, Hlen. simpl. lia.
  - by rewrite Hi.
Qed.

Lemma edit_records_buffer_before_witness :
  history_ok (fresh two_pixels) /\
  current_image (fresh two_pixels) = Some two_pixels /\
  history (@apply_edit plain_numerics (Rotate 45) (fresh two_pixels)).2
    !! Z.to_nat (history_index (fresh two_pixels) + 1)
  = Some (Some two_pixels).
Proof.
  assert (history_ok (fresh two_pixels)) as Hok.
  { apply (loaded_history_ok two_pixels), loaded_fresh. }
  split; [exact Hok|]. split; [reflexivity|].
  exact (proj1 (proj2
    (@edit_records_buffer_before plain_numerics (Rotate 45)
       (fresh two_pixels) two_pixels _ _ Hok eq_refl eq_refl))).
Defined.

(** ** Going back and forth *)

(** X6: with the cursor within the history, on an entry that holds
    [snap]: when [undo] succeeds, a [redo] right after it succeeds too,
    and when [redo] succeeds from a cursor at 0 or above, an [undo] right
    after it succeeds too; either way the history and the cursor are
    back where they were, and the current buffer is the snapshot at the
    cursor. *)
Theorem back_and_forth self snap :
  history_ok self ->
  history self !! Z.to_nat (history_index self) = Some snap ->
  (0 < history_index self ->
   (undo self).1 = Return true /\
   redo (undo self).2 = (Return true, set_current_image snap self)) /\
  (0 <= history_index self < Z.of_nat (length (history self)) - 1 ->
   (redo self).1 = Return true /\
   undo (redo self).2 = (Return true, set_current_image snap self)).
Proof.
  intros Hok Hsnap. pose proof Hok as Hok'. unfold history_ok in Hok'. split.
  - intros Hi. destruct (undo_succeeds self Hok Hi) as (s1 & _ & Hu).
    rewrite Hu. split; [done|]. simpl.
    set (self1 := set_current_image s1
                    (set_history_index (history_index self - 1) self)).
    assert (history_ok self1) as Hok1 by (unfold history_ok; simpl; lia).
    destruct (redo_succeeds self1 Hok1) as (s2 & Hs2 & Hr); [simpl; lia|].
    rewrite Hr. simpl in Hs2.
    replace (history_index self - 1 + 1) with (history_index self) in Hs2 by lia.
    rewrite Hsnap in Hs2. inversion Hs2; subst s2.
    unfold set_current_image, set_history_index. simpl.
    do 2 f_equal. lia.
  - intros Hi. destruct (redo_succeeds self Hok) as (s1 & _ & Hr); [lia|].
    rewrite Hr. split; [done|]. simpl.
    set (self1 := set_current_image s1
                    (set_history_index (history_index self + 1) self)).
    assert (history_ok self1) as Hok1 by (unfold history_ok; simpl; lia).
    destruct (undo_succeeds self1 Hok1) as (s2 & Hs2 & Hu); [simpl; lia|].
    rewrite Hu. simpl in Hs2.
    replace (history_index self + 1 - 1) with (history_index self) in Hs2 by lia.
    rewrite Hsnap in Hs2. inversion Hs2; subst s2.
    unfold set_current_image, set_history_index. simpl.
    do 2 f_equal. lia.
Qed.

Lemma back_and_forth_witness :
  history_ok twice_flipped /\
  history twice_flipped !! Z.to_nat (history_index twice_flipped)
  = Some (Some two_pixels_flipped) /\
  redo (undo twice_flipped).2
  = (Return true, set_current_image (Some two_pixels_flipped) twice_flipped).
Proof.
  assert (history_ok twice_flipped) as Hok.
  { unfold history_ok. vm_compute. split; discriminate. }
  split; [exact Hok|]. split; [reflexivity|].
  refine (proj2 (proj1 (back_and_forth twice_flipped
                          (Some two_pixels_flipped) Hok eq_refl) _)).
  reflexivity.
Defined.

(** ** Reset *)

Lemma original_image_perform `{Numerics} a self :
  original_image (perform a self).2 = original_image self.
Proof.
  destruct a as [e| |]; simpl.
  - destruct (apply_edit e self) as [r self'] eqn:Hrun.
    by destruct (apply_edit_history _ _ _ _ Hrun)
      as [(_ & -> & _)|(_ & _ & _ & Ho)].
  - unfold undo. destruct (0 <? history_index self); [|done].
    by destruct (py_index _ _).
  - unfold redo. destruct (history_index self <? _); [|done].
    by destruct (py_index _ _).
Qed.

Lemma original_image_perform_all `{Numerics} l self :
  original_image (perform_all l self) = original_image self.
Proof.
  revert self. induction l as [|a l IH]; intros self; [done|].
  simpl. by rewrite IH, original_image_perform.
Qed.

(** X7: after a load, whatever edits, undos and redos were called and
    whatever they returned, [reset_image] returns True and leaves the
    session as the load left it: the loaded buffer is current again, the
    history is empty, and [undo] and [redo] return False. *)
Theorem reset_restores_loaded `{Numerics} img self0 l :
  loaded img self0 ->
  exists self',
    reset_image (perform_all l self0) = (Return true, self') /\
    loaded img self' /\
    undo self' = (Return false, self') /\
    redo self' = (Return false, self').
Proof.
  intros (Ho & _ & _ & _).
  pose proof (original_image_perform_all l self0) as Ho'. rewrite Ho in Ho'.
  unfold reset_image. rewrite Ho'. eexists. split; [done|].
  split; [by repeat split|]. split; [by apply undo_fails|].
  by apply redo_fails.
Qed.

Lemma reset_restores_loaded_witness :
  loaded two_pixels (fresh two_pixels) /\
  exists self',
    reset_image
      (@perform_all plain_numerics
         [DoEdit (Rotate 90); DoEdit Grayscale; DoUndo; DoEdit (Blur 4)]
         (fresh two_pixels))
    = (Return true, self') /\
    current_image self' = Some two_pixels.
Proof.
  split; [apply loaded_fresh|].
  destruct (@reset_restores_loaded plain_numerics two_pixels
              (fresh two_pixels)
              [DoEdit (Rotate 90); DoEdit Grayscale; DoUndo; DoEdit (Blur 4)]
              (loaded_fresh two_pixels))
    as (self' & Hreset & (_ & Hcur & _) & _).
  exists self'. split; [exact Hreset | exact Hcur].
Defined.

(** ** Undoing and redoing all the way *)

Lemma save_history_at_tip self :
  history_index self = Z.of_nat (length (history self)) - 1 ->
  history (_save_to_history self) = history self ++ [current_image self].
Proof.
  intros Htip. unfold _save_to_history, py_slice_to. simpl.
  destruct (Z.leb_spec 0 (history_index self + 1)); [|lia].
  rewrite take_ge by lia. done.
Qed.

Lemma apply_edit_at_tip_history `{Numerics} e self self' :
  history_index self = Z.of_nat (length (history self)) - 1 ->
  apply_edit e self = (Return true, self') ->
  history self' = history self ++ [current_image self] /\
  history_index self' = Z.of_nat (length (history self')) - 1.
Proof.
  intros Htip Hrun.
  destruct (apply_edit_true _ _ _ Hrun) as (_ & Hh & Hi & _).
  rewrite Hh, Hi, (save_history_at_tip self Htip). split; [done|].
  unfold _save_to_history. simpl. rewrite length_app. simpl. lia.
Qed.

Lemma apply_edits_keep_history `{Numerics} es self self' :
  history_index self = Z.of_nat (length (history self)) - 1 ->
  apply_edits es self = (true, self') ->
  exists later, history self' = history self ++ later.
Proof.
  revert self. induction es as [|e es IH]; intros self Htip Hrun; simpl in *.
  - inversion Hrun; subst. exists []. by rewrite app_nil_r.
  - destruct (apply_edit e self) as [[[]|] self1] eqn:He; try by inversion Hrun.
    destruct (apply_edit_at_tip_history _ _ _ Htip He) as [Hh1 Htip1].
    destruct (IH self1 Htip1 Hrun) as [later Hl].
    exists ([current_image self] ++ later). by rewrite Hl, Hh1, <- app_assoc.
Qed.

(** After a load and at least one successful edit, the first history
    entry is the loaded buffer. *)
Lemma first_snapshot_is_loaded `{Numerics} img self0 es self1 :
  loaded img self0 -> es <> [] -> apply_edits es self0 = (true, self1) ->
  history self1 !! 0%nat = Some (Some img).
Proof.
  intros (_ & Hcur & Hh & Hi) Hne Hrun.
  destruct es as [|e es]; [done|]. simpl in Hrun.
  destruct (apply_edit e self0) as [[[]|] s1] eqn:He; try by inversion Hrun.
  assert (history_index self0 = Z.of_nat (length (history self0)) - 1) as Htip
    by (by rewrite Hh, Hi).
  destruct (apply_edit_at_tip_history _ _ _ Htip He) as [Hh1 Htip1].
  destruct (apply_edits_keep_history _ _ _ Htip1 Hrun) as [later Hl].
  by rewrite Hl, Hh1, Hh, Hcur.
Qed.

(** From a cursor at [k], [k] undos succeed and end on the first entry. *)
Lemma call_times_undo (k : nat) self :
  history_ok self -> history_index self = Z.of_nat k ->
  (call_times k undo self).1 = replicate k (Return true) /\
  history (call_times k undo self).2 = history self /\
  history_index (call_times k undo self).2 = 0 /\
  ((0 < k)%nat ->
   exists snap,
     history self !! 0%nat = Some snap /\
     current_image (call_times k undo self).2 = snap).
Proof.
  revert self. induction k as [|k IH]; intros self Hok Hi.
  - simpl. repeat split; [done | lia].
  - destruct (undo_succeeds self Hok) as (s1 & Hs1 & Hu); [lia|].
    simpl call_times. rewrite Hu.
    set (self1 := set_current_image s1
                    (set_history_index (history_index self - 1) self)) in *.
    assert (history_ok self1) as Hok1.
    { unfold history_ok in *. simpl. lia. }
    assert (history_index self1 = Z.of_nat k) as Hi1 by (simpl; lia).
    destruct (IH self1 Hok1 Hi1) as (Hrs & Hh & Hidx & Hcur).
    destruct (call_times k undo self1) as [rs self2] eqn:Hrun. simpl in *.
    rewrite Hrs. repeat split; [done | done|].
    intros _. destruct k as [|k].
    + inversion Hrun; subst self2. exists s1. split; [|done].
      by replace (history_index self - 1) with 0 in Hs1 by lia.
    + apply Hcur. lia.
Qed.

(** From a cursor at 0 or above, as many redos as there are entries
    above the cursor succeed and end on the last entry. *)
Lemma call_times_redo (k : nat) self :
  history_ok self -> 0 <= history_index self ->
  Z.of_nat (length (history self)) - 1 - history_index self = Z.of_nat k ->
  (call_times k redo self).1 = replicate k (Return true) /\
  history (call_times k redo self).2 = history self /\
  history_index (call_times k redo self).2
  = Z.of_nat (length (history self)) - 1 /\
  ((0 < k)%nat ->
   exists snap,
     history self !! (length (history self) - 1)%nat = Some snap /\
     current_image (call_times k redo self).2 = snap).
Proof.
  revert self. induction k as [|k IH]; intros self Hok Hge Hi.
  - simpl. repeat split; [lia | lia].
  - destruct (redo_succeeds self Hok) as (s1 & Hs1 & Hr); [lia|].
    simpl call_times. rewrite Hr.
    set (self1 := set_current_image s1
                    (set_history_index (history_index self + 1) self)) in *.
    assert (history_ok self1) as Hok1.
    { unfold history_ok in *. simpl. lia. }
    assert (Z.of_nat (length (history self1)) - 1 - history_index self1
            = Z.of_nat k) as Hi1 by (simpl; lia).
    destruct (IH self1 Hok1 ltac:(simpl; lia) Hi1) as (Hrs & Hh & Hidx & Hcur).
    destruct (call_times k redo self1) as [rs self2] eqn:Hrun. simpl in *.
    rewrite Hrs. repeat split; [done | done|].
    intros _. destruct k as [|k].
    + inversion Hrun; subst self2. exists s1. split; [|done].
      rewrite <- Hs1. f_equal. lia.
    + apply Hcur. lia.
Qed.

(** X8: after a load and N >= 2 successful edits, N - 1 undos in a row
    all return True and bring the loaded buffer back as the current one,
    with the history untouched; the undo after them returns False and
    changes nothing. *)
Theorem undo_all_reaches_loaded `{Numerics} img self0 es self1 :
  loaded img self0 -> (2 <= length es)%nat ->
  apply_edits es self0 = (true, self1) ->
  let n := (length es - 1)%nat in
  let undone := call_times n undo self1 in
  undone.1 = replicate n (Return true) /\
  current_image undone.2 = Some img /\
  history undone.2 = history self1 /\
  undo undone.2 = (Return false, undone.2).
Proof.
  intros Hload Hn Hrun. cbv zeta.
  pose proof Hload as (_ & _ & Hh & Hi).
  assert (history_index self0 = Z.of_nat (length (history self0)) - 1) as Htip
    by (by rewrite Hh, Hi).
  destruct (apply_edits_at_tip es self0 self1 Htip Hrun) as [Htip1 Hlen1].
  rewrite Hh in Hlen1. simpl in Hlen1.
  assert (history_ok self1) as Hok1 by (unfold history_ok; lia).
  assert (es <> []) as Hne by (intros ->; simpl in Hn; lia).
  pose proof (first_snapshot_is_loaded img self0 es self1 Hload Hne Hrun)
    as Hfirst.
  destruct (call_times_undo (length es - 1) self1 Hok1)
    as (Hrs & Hhist & Hidx & Hcur); [lia|].
  destruct Hcur as (snap & Hsnap & Hcur); [lia|].
  rewrite Hfirst in Hsnap. inversion Hsnap; subst snap.
  repeat split; try done. apply undo_fails. lia.
Qed.

Lemma undo_all_reaches_loaded_witness :
  loaded two_pixels (fresh two_pixels) /\ (2 <= length two_edits)%nat /\
  apply_edits two_edits (fresh two_pixels)
  = (true, (apply_edits two_edits (fresh two_pixels)).2) /\
  current_image
    (call_times 1 undo (apply_edits two_edits (fresh two_pixels)).2).2
  = Some two_pixels.
Proof.
  split; [apply loaded_fresh|]. split; [apply Nat.le_refl|].
  split; [reflexivity|].
  exact (proj1 (proj2
    (@undo_all_reaches_loaded plain_numerics two_pixels (fresh two_pixels)
       two_edits (apply_edits two_edits (fresh two_pixels)).2
       (loaded_fresh two_pixels) (Nat.le_refl 2) eq_refl))).
Defined.



(** ** Quarter turns and mirrors together *)

Section TurnFacts.
Context {A : Type} `{Inhabited A}.
Implicit Types (m : list (list A)) (h w : nat).
Local Open Scope nat_scope.

Lemma rect_rotate_cw m h w :
  rect m h w -> 0 < h -> rect (cv2_rotate m ROTATE_90_CLOCKWISE) w h.
Proof. intros Hm Hh. by apply rect_fmap_reverse, rect_transpose. Qed.

Lemma rotate_cw_after_ccw m h w :
  rect m h w -> 0 < h -> 0 < w ->
  cv2_rotate (cv2_rotate m ROTATE_90_COUNTERCLOCKWISE) ROTATE_90_CLOCKWISE
  = m.
Proof.
  intros Hm Hh Hw. simpl. unfold cv2_flip. simpl.
  rewrite (transpose_reverse _ w h) by (done || by apply rect_transpose).
  rewrite (transpose_involutive m h w) by done.
  apply fmap_reverse_involutive.
Qed.

Lemma rotate_ccw_after_cw m h w :
  rect m h w -> 0 < h -> 0 < w ->
  cv2_rotate (cv2_rotate m ROTATE_90_CLOCKWISE) ROTATE_90_COUNTERCLOCKWISE
  = m.
Proof.
  intros Hm Hh Hw. simpl. unfold cv2_flip. simpl.
  rewrite (transpose_fmap_reverse _ w h) by (done || by apply rect_transpose).
  rewrite (transpose_involutive m h w) by done.
  apply reverse_involutive.
Qed.

Lemma rotate_ccw_three_times m h w :
  rect m h w -> 0 < h -> 0 < w ->
  cv2_rotate (cv2_rotate (cv2_rotate m ROTATE_90_COUNTERCLOCKWISE)
    ROTATE_90_COUNTERCLOCKWISE) ROTATE_90_COUNTERCLOCKWISE
  = cv2_rotate m ROTATE_90_CLOCKWISE.
Proof.
  intros Hm Hh Hw. rewrite (rotate_ccw_twice m h w) by done.
  simpl. unfold cv2_flip. simpl.
  rewrite (transpose_reverse _ h w) by (done || by apply rect_fmap_reverse).
  rewrite (transpose_fmap_reverse m h w) by done.
  by rewrite fmap_reverse, reverse_involutive.
Qed.

Lemma flip_both_ways m :
  cv2_flip (cv2_flip m 1) 0 = cv2_rotate m ROTATE_180 /\
  cv2_flip (cv2_flip m 0) 1 = cv2_rotate m ROTATE_180.
Proof.
  simpl. unfold cv2_flip. simpl. split; [done|]. by rewrite fmap_reverse.
Qed.

Lemma rect_map2d {B} (f : A -> B) m h w :
  rect m h w -> rect (map2d f m) h w.
Proof.
  intros [Hl Hr]. unfold map2d. split; [by rewrite length_fmap|].
  apply Forall_fmap. eapply Forall_impl; [apply Hr|].
  intros r Hrw. simpl. by rewrite length_fmap.
Qed.
End TurnFacts.

Lemma rotate_image_270 self img :
  current_image self = Some img ->
  rotate_image 270 self
  = (Return true,
     set_current_image (Some (cv2_rotate img ROTATE_90_CLOCKWISE))
       (_save_to_history self)).
Proof.
  intros Hcur. unfold rotate_image.
  rewrite bool_decide_false by (by rewrite Hcur). simpl.
  by apply (assign_current_ok _ self img).
Qed.

(** X10: with a rectangular, non-empty image loaded, a rotation by 270
    undoes a rotation by 90 and a rotation by 90 undoes a rotation by
    270, and three rotations by 90 leave the very buffer one rotation by
    270 leaves; every one of these calls returns True. *)
Theorem quarter_turns_compose self img (h w : nat) :
  current_image self = Some img ->
  rect img h w -> (0 < h)%nat -> (0 < w)%nat ->
  let there := rotate_image 90 self in
  let back := rotate_image 270 self in
  (there.1 = Return true /\ back.1 = Return true) /\
  (rotate_image 270 there.2).1 = Return true /\
  current_image (rotate_image 270 there.2).2 = Some img /\
  (rotate_image 90 back.2).1 = Return true /\
  current_image (rotate_image 90 back.2).2 = Some img /\
  current_image (call_times 3 (rotate_image 90) self).2
  = current_image back.2.
Proof.
  intros Hcur Hrect Hh Hw. cbv zeta.
  rewrite (rotate_image_90 self img Hcur), (rotate_image_270 self img Hcur).
  cbn [fst snd].
  rewrite (rotate_image_270 (set_current_image (Some _) _) _ eq_refl).
  rewrite (rotate_image_90 (set_current_image (Some _) _) _ eq_refl).
  cbn [fst snd current_image set_current_image].
  rewrite (rotate_cw_after_ccw img h w), (rotate_ccw_after_cw img h w)
    by done.
  repeat split.
  destruct (call_times_edit _
              (fun m => cv2_rotate m ROTATE_90_COUNTERCLOCKWISE) 3
              rotate_image_90 self img Hcur) as [_ ->].
  cbn [Nat.iter nat_rect]. by rewrite (rotate_ccw_three_times img h w).
Qed.

Lemma quarter_turns_compose_witness :
  current_image (fresh two_pixels) = Some two_pixels /\
  rect two_pixels 1 2 /\ (0 < 1)%nat /\ (0 < 2)%nat /\
  current_image
    (rotate_image 270 (rotate_image 90 (fresh two_pixels)).2).2
  = Some two_pixels.
Proof.
  assert (rect two_pixels 1 2) as Hrect.
  { split; [reflexivity|]. repeat constructor. }
  split; [reflexivity|]. split; [exact Hrect|].
  split; [apply Nat.lt_0_1|]. split; [apply Nat.lt_0_2|].
  exact (proj1 (proj2 (proj2
    (quarter_turns_compose (fresh two_pixels) two_pixels 1 2 eq_refl Hrect
       Nat.lt_0_1 Nat.lt_0_2)))).
Defined.

(** X11: with an image loaded, two vertical flips in a row give the
    buffer back, and a horizontal flip followed by a vertical one, or a
    vertical one followed by a horizontal one, leaves the very buffer a
    rotation by 180 leaves; every one of these calls returns True. *)
Theorem flips_compose self img :
  current_image self = Some img ->
  let across := flip_image "horizontal" self in
  let down := flip_image "vertical" self in
  (across.1 = Return true /\ down.1 = Return true) /\
  (flip_image "vertical" down.2).1 = Return true /\
  current_image (flip_image "vertical" down.2).2 = Some img /\
  (flip_image "vertical" across.2).1 = Return true /\
  current_image (flip_image "vertical" across.2).2
  = current_image (rotate_image 180 self).2 /\
  (flip_image "horizontal" down.2).1 = Return true /\
  current_image (flip_image "horizontal" down.2).2
  = current_image (rotate_image 180 self).2.
Proof.
  intros Hcur. cbv zeta.
  rewrite (flip_image_horizontal "horizontal" self img Hcur eq_refl).
  rewrite (flip_image_vertical "vertical" self img Hcur eq_refl).
  rewrite (rotate_image_180 self img Hcur).
  cbn [fst snd].
  rewrite !(flip_image_vertical "vertical" (set_current_image (Some _) _)
              _ eq_refl eq_refl).
  rewrite (flip_image_horizontal "horizontal" (set_current_image (Some _) _)
             _ eq_refl eq_refl).
  cbn [fst snd current_image set_current_image].
  destruct (flip_both_ways img) as [-> ->]. rewrite flip_flip. done.
Qed.

Lemma flips_compose_witness :
  current_image (fresh two_pixels) = Some two_pixels /\
  current_image
    (flip_image "vertical" (flip_image "horizontal" (fresh two_pixels)).2).2
  = current_image (rotate_image 180 (fresh two_pixels)).2.
Proof.
  split; [reflexivity|].
  exact (proj1 (proj2 (proj2 (proj2 (proj2
    (flips_compose (fresh two_pixels) two_pixels eq_refl)))))).
Defined.

(** ** Dimensions *)

Lemma dimensions_rect self (m : image) (h w : nat) :
  current_image self = Some m -> rect m h w -> (0 < h)%nat ->
  get_image_dimensions self = (Z.of_nat w, Z.of_nat h).
Proof.
  intros Hcur Hm Hh. unfold get_image_dimensions. rewrite Hcur.
  rewrite (cols_rect m h w Hm Hh). unfold rows. by destruct Hm as [-> _].
Qed.

(** A contrast adjustment maps every pixel of the buffer on its own
    once the channel means are known. *)
Lemma adjust_contrast_ok `{Numerics} factor self img :
  current_image self = Some img ->
  exists f : pixel -> pixel,
    adjust_contrast factor self
    = (Return true,
       set_current_image (Some (map2d f img)) (_save_to_history self)).
Proof.
  intros Hcur. unfold adjust_contrast.
  rewrite bool_decide_false by (by rewrite Hcur).
  eexists. by apply (assign_current_ok _ self img).
Qed.

(** X12: with an image of width w and height h loaded (both positive),
    the dimensions reported are (w, h); after a rotation by 90 or 270
    they are (h, w); after a rotation by 180, a flip, a grayscale
    conversion or a contrast adjustment they are still (w, h). *)
Theorem dimensions_after_edit `{Numerics} self img (h w : nat) :
  current_image self = Some img ->
  rect img h w -> (0 < h)%nat -> (0 < w)%nat ->
  let same := (Z.of_nat w, Z.of_nat h) in
  let swapped := (Z.of_nat h, Z.of_nat w) in
  get_image_dimensions self = same /\
  get_image_dimensions (rotate_image 90 self).2 = swapped /\
  get_image_dimensions (rotate_image 270 self).2 = swapped /\
  get_image_dimensions (rotate_image 180 self).2 = same /\
  get_image_dimensions (flip_image "horizontal" self).2 = same /\
  get_image_dimensions (flip_image "vertical" self).2 = same /\
  get_image_dimensions (convert_grayscale self).2 = same /\
  forall factor,
    get_image_dimensions (adjust_contrast factor self).2 = same.
Proof.
  intros Hcur Hrect Hh Hw. cbv zeta.
  rewrite (rotate_image_90 self img Hcur), (rotate_image_270 self img Hcur),
    (rotate_image_180 self img Hcur), (convert_grayscale_ok self img Hcur),
    (flip_image_horizontal "horizontal" self img Hcur eq_refl),
    (flip_image_vertical "vertical" self img Hcur eq_refl).
  cbn [fst snd]. repeat split.
  - by apply (dimensions_rect self img).
  - apply (dimensions_rect (set_current_image (Some _) _) _ w h eq_refl); [|done].
    by apply rect_rotate_ccw.
  - apply (dimensions_rect (set_current_image (Some _) _) _ w h eq_refl); [|done].
    by apply rect_rotate_cw.
  - apply (dimensions_rect (set_current_image (Some _) _) _ h w eq_refl); [|done].
    by apply rect_rotate_180.
  - apply (dimensions_rect (set_current_image (Some _) _) _ h w eq_refl); [|done].
    by apply rect_fmap_reverse.
  - apply (dimensions_rect (set_current_image (Some _) _) _ h w eq_refl); [|done].
    by apply rect_reverse.
  - apply (dimensions_rect (set_current_image (Some _) _) _ h w eq_refl); [|done].
    by apply rect_map2d, rect_map2d.
  - intros factor.
    destruct (adjust_contrast_ok factor self img Hcur) as (f & ->).
    cbn [snd].
    apply (dimensions_rect (set_current_image (Some _) _) _ h w eq_refl); [|done].
    by apply rect_map2d.
Qed.

Lemma dimensions_after_edit_witness :
  current_image (fresh two_pixels) = Some two_pixels /\
  rect two_pixels 1 2 /\ (0 < 1)%nat /\ (0 < 2)%nat /\
  get_image_dimensions (rotate_image 90 (fresh two_pixels)).2 = (1, 2).
Proof.
  assert (rect two_pixels 1 2) as Hrect.
  { split; [reflexivity|]. repeat constructor. }
  split; [reflexivity|]. split; [exact Hrect|].
  split; [apply Nat.lt_0_1|]. split; [apply Nat.lt_0_2|].
  exact (proj1 (proj2
    (@dimensions_after_edit plain_numerics (fresh two_pixels) two_pixels 1 2
       eq_refl Hrect Nat.lt_0_1 Nat.lt_0_2))).
Defined.

(** ** Gray values *)

Lemma rgb2gray_pixel_between (r g b : Z) :
  Z.min r (Z.min g b) <= rgb2gray_pixel (r, g, b) <= Z.max r (Z.max g b).
Proof.
  unfold rgb2gray_pixel, CV_DESCALE, gray_shift, RY15, GY15, BY15.
  rewrite Z.shiftr_div_pow2 by lia.
  change (Z.shiftl 1 (15 - 1)) with 16384. change (2 ^ 15) with 32768.
  split.
  - apply Z.div_le_lower_bound; lia.
  - apply Z.lt_succ_r, Z.div_lt_upper_bound; lia.
Qed.

Lemma Forall2_map2d {A B} (R : A -> B -> Prop) (f : A -> B)
    (m : list (list A)) :
  (forall x, R x (f x)) -> Forall2 (Forall2 R) m (map2d f m).
Proof.
  intros HR. unfold map2d.
  induction m as [|r m IH]; [constructor|].
  rewrite fmap_cons. constructor; [|done].
  induction r as [|x r IHr]; [constructor|].
  rewrite fmap_cons. by constructor.
Qed.

Lemma map2d_map2d {A B C} (f : A -> B) (g : B -> C) (m : list (list A)) :
  map2d g (map2d f m) = map2d (fun x => g (f x)) m.
Proof.
  unfold map2d. induction m as [|r m IH]; [done|].
  rewrite !fmap_cons, IH. f_equal.
  induction r as [|x r IHr]; [done|]. rewrite !fmap_cons. by f_equal.
Qed.

Lemma image_ok_between (img out : image) :
  Forall2 (Forall2 (fun p q : pixel =>
    q.1.1 = q.2 /\ q.1.2 = q.2 /\
    Z.min p.1.1 (Z.min p.1.2 p.2) <= q.2
      <= Z.max p.1.1 (Z.max p.1.2 p.2))) img out ->
  image_ok img -> image_ok out.
Proof.
  unfold image_ok. intros Hall.
  induction Hall as [|r r' m m' Hr _ IH]; [done|].
  intros Hok. inversion Hok as [|? ? Hrok Hmok]; subst.
  constructor; [|by apply IH].
  clear -Hr Hrok. induction Hr as [|p q r r' Hpq _ IHr]; [done|].
  inversion Hrok as [|? ? Hp Hrest]; subst.
  constructor; [|by apply IHr].
  destruct Hp as (H1 & H2 & H3), Hpq as (E1 & E2 & Hb).
  unfold pixel_ok, sample_ok in *. rewrite E1, E2. lia.
Qed.

(** X13: with an image loaded, [convert_grayscale] returns True and
    leaves a buffer of the same shape in which every pixel has three
    equal samples, whose value lies between the smallest and the largest
    sample of the pixel it comes from; so samples within 0..255 stay
    within 0..255. *)
Theorem grayscale_within_samples self img :
  current_image self = Some img ->
  exists out,
    convert_grayscale self
    = (Return true, set_current_image (Some out) (_save_to_history self)) /\
    Forall2 (Forall2 (fun p q : pixel =>
      q.1.1 = q.2 /\ q.1.2 = q.2 /\
      Z.min p.1.1 (Z.min p.1.2 p.2) <= q.2
        <= Z.max p.1.1 (Z.max p.1.2 p.2))) img out /\
    (image_ok img -> image_ok out).
Proof.
  intros Hcur. eexists. split; [by apply convert_grayscale_ok|].
  unfold cvtColor_GRAY2RGB, cvtColor_RGB2GRAY. rewrite map2d_map2d.
  assert (Forall2 (Forall2 (fun p q : pixel =>
            q.1.1 = q.2 /\ q.1.2 = q.2 /\
            Z.min p.1.1 (Z.min p.1.2 p.2) <= q.2
              <= Z.max p.1.1 (Z.max p.1.2 p.2))) img
            (map2d (fun x => (rgb2gray_pixel x, rgb2gray_pixel x,
                              rgb2gray_pixel x)) img)) as Hall.
  { apply Forall2_map2d. intros [[r g] b]. simpl.
    split; [done|]. split; [done|]. apply rgb2gray_pixel_between. }
  split; [exact Hall|]. by apply image_ok_between.
Qed.

Lemma grayscale_within_samples_witness :
  current_image (fresh two_pixels) = Some two_pixels /\
  exists out,
    convert_grayscale (fresh two_pixels)
    = (Return true,
       set_current_image (Some out) (_save_to_history (fresh two_pixels))) /\
    (image_ok two_pixels -> image_ok out).
Proof.
  split; [reflexivity|].
  destruct (grayscale_within_samples (fresh two_pixels) two_pixels eq_refl)
    as (out & Hrun & _ & Hok).
  exists out. split; [exact Hrun | exact Hok].
Defined.

(** ** Blur with any intensity *)



(** ** Directions in any case *)

Lemma ascii_lower_idempotent c : ascii_lower (ascii_lower c) = ascii_lower c.
Proof.
  destruct c as [b0 b1 b2 b3 b4 b5 b6 b7].
  by destruct b0, b1, b2, b3, b4, b5, b6, b7.
Qed.

Lemma lower_idempotent s : lower (lower s) = lower s.
Proof.
  induction s as [|c s IH]; [done|].
  simpl. by rewrite ascii_lower_idempotent, IH.
Qed.

(** X15: [flip_image] depends on the direction only through its
    lower-case form: for every string and every session, the call with
    the string and the call with its lower-case form give the same result
    and leave the same session, whether the direction is taken or
    turned down. *)
Theorem flip_image_lower direction self :
  flip_image direction self = flip_image (lower direction) self.
Proof. unfold flip_image. by rewrite lower_idempotent. Qed.

(** ** Files *)

Lemma cvtColor_BGR2RGB_RGB2BGR (img : image) :
  cvtColor_BGR2RGB (cvtColor_RGB2BGR img) = img.
Proof.
  unfold cvtColor_BGR2RGB, cvtColor_RGB2BGR. rewrite map2d_map2d.
  unfold map2d. induction img as [|r m IH]; [done|].
  rewrite fmap_cons, IH. f_equal.
  induction r as [|[[a b] c] r IHr]; [done|]. rewrite fmap_cons. by f_equal.
Qed.

(** X16: [save_image] never changes the session and never raises.
    Without an image it returns False and does not call [imwrite]; with
    one it hands [imwrite] the buffer with the first and third sample
    exchanged, and returns True whenever [imwrite] returns, also when
    [imwrite] returns False, and False only when [imwrite] raises. *)
Theorem save_image_result {disk : Type}
    (imwrite : string -> image -> disk -> outcome bool * disk)
    file_path self (d : disk) :
  (save_image imwrite file_path self d).1.2 = self /\
  (current_image self = None ->
   save_image imwrite file_path self d = (Return false, self, d)) /\
  (forall img,
     current_image self = Some img ->
     (save_image imwrite file_path self d).2
     = (imwrite file_path (cvtColor_RGB2BGR img) d).2 /\
     (save_image imwrite file_path self d).1.1
     = match (imwrite file_path (cvtColor_RGB2BGR img) d).1 with
       | Return _ => Return true
       | Raise _ => Return false
       end).
Proof.
  unfold save_image. split; [|split].
  - destruct (current_image self) as [img|]; [|done].
    by destruct (imwrite _ _ _) as [[|] d'].
  - by intros ->.
  - intros img ->. by destruct (imwrite _ _ _) as [[|] d'].
Qed.

(** X17: when [imwrite] returns True and the disk gives back, under the
    path written, the array it was handed, saving the current buffer and
    loading the same path again, into any session, gives a session whose
    original and current buffer are the buffer saved, with an empty
    history and the path recorded: the exchange of samples made on
    saving undoes the one made on loading. *)
Theorem save_then_load {disk : Type}
    (imread : disk -> string -> option image)
    (imwrite : string -> image -> disk -> outcome bool * disk)
    path self img (d d' : disk) :
  current_image self = Some img ->
  (forall p i d0 d1, imwrite p i d0 = (Return true, d1) -> imread d1 p = Some i) ->
  imwrite path (cvtColor_RGB2BGR img) d = (Return true, d') ->
  save_image imwrite path self d = (Return true, self, d') /\
  exists self',
    loaded img self' /\ image_path self' = Some path /\
    forall other, load_image (imread d') path other = (Return true, self').
Proof.
  intros Hcur Hstore Hwrite. split.
  - unfold save_image. by rewrite Hcur, Hwrite.
  - eexists. split; [|split]; [| |intros other; unfold load_image;
      rewrite (Hstore _ _ _ _ Hwrite); reflexivity].
    + unfold deepcopy. rewrite cvtColor_BGR2RGB_RGB2BGR. by repeat split.
    + done.
Qed.

Lemma save_then_load_witness :
  current_image twice_flipped = Some two_pixels /\
  (forall p i d0 d1,
     memory_imwrite p i d0 = (Return true, d1) -> memory_imread d1 p = Some i) /\
  exists d' self',
    save_image memory_imwrite "out.png" twice_flipped empty_disk
    = (Return true, twice_flipped, d') /\
    load_image (memory_imread d') "out.png" init = (Return true, self') /\
    current_image self' = Some two_pixels.
Proof.
  assert (forall p i d0 d1,
            memory_imwrite p i d0 = (Return true, d1) ->
            memory_imread d1 p = Some i) as Hstore.
  { intros p i d0 d1 Hw. unfold memory_imwrite in Hw. inversion Hw; subst.
    unfold memory_imread. by rewrite bool_decide_true. }
  split; [reflexivity|]. split; [exact Hstore|].
  destruct (save_then_load memory_imread memory_imwrite "out.png"
              twice_flipped two_pixels empty_disk
              (memory_imwrite "out.png" (cvtColor_RGB2BGR two_pixels)
                 empty_disk).2
              eq_refl Hstore eq_refl)
    as (Hsave & self' & (_ & Hcur & _) & _ & Hload).
  eexists _, self'. split; [exact Hsave|]. split; [apply Hload | exact Hcur].
Defined.

(** X18: a load that cannot decode the file returns False and keeps the
    whole session, edits and history included; a load that can returns
    True, makes the decoded buffer (first and third sample exchanged)
    the original and the current one and records the path, whatever the
    session held before; its history is empty, so [undo] and [redo]
    return False right after it. *)
Theorem load_image_result imread path self :
  (imread path = None -> load_image imread path self = (Return false, self)) /\
  (forall img,
     imread path = Some img ->
     exists self',
       load_image imread path self = (Return true, self') /\
       loaded (cvtColor_BGR2RGB img) self' /\
       image_path self' = Some path /\
       undo self' = (Return false, self') /\
       redo self' = (Return false, self')).
Proof.
  unfold load_image. split.
  - by intros ->.
  - intros img ->. eexists. split; [done|].
    split; [by repeat split|]. split; [done|].
    split; [by apply undo_fails | by apply redo_fails].
Qed.

(** ** The resize dialog *)


(** ** The undo and redo handlers *)


